(** * ELSPORT: the tender and task request handlers and the record transformer

    A shallow embedding of

    - [netlify/functions/tasks.js] and [netlify/functions/tenders.js]
      (and of the two further copies of these handlers that the repository
      keeps, one per pool-initialisation style), and
    - the record transformers and the request-building methods of
      [src/services/api.js].

    A handler is a function from an event and the state of its process
    (environment, module-level pool, backing store) to a response and the
    next state.  Exceptions are explicit: the [try] scope of a handler is a
    computation in a small state-and-exception monad, and the handler is
    that computation under its [catch]. *)

From Stdlib Require Import ZArith List String Ascii Bool Lia.
From Stdlib Require Import Permutation Sorted.
Import ListNotations.

Local Open Scope string_scope.
Local Open Scope Z_scope.
Local Open Scope list_scope.

(* ------------------------------------------------------------------ *)
(** ** JavaScript values *)

(** The values that travel through the handlers: what [JSON.parse] can
    produce, [undefined] (the value of an absent property), and the [Date]
    objects that the driver makes of timestamp columns.  An object is the
    list of its own properties; a key is bound at most once, and [lookup]
    reads the first binding. *)
#[local] Set Warnings "-register-all".
Inductive jsval : Type :=
| JUndefined
| JNull
| JBool (b : bool)
| JNum (n : Z)
| JStr (s : string)
| JDate (t : Z)
| JArr (items : list jsval)
| JObj (props : list (string * jsval)).

(** [ToBoolean]: what [!v] and [v || w] test. *)
Definition truthy (v : jsval) : bool :=
  match v with
  | JUndefined | JNull => false
  | JBool b => b
  | JNum n => negb (n =? 0)
  | JStr s => negb (s =? "")%string
  | JDate _ | JArr _ | JObj _ => true
  end.

(** [a || b] *)
Definition js_or (a b : jsval) : jsval := if truthy a then a else b.

Fixpoint lookup (k : string) (props : list (string * jsval)) : jsval :=
  match props with
  | [] => JUndefined
  | (k', v) :: rest => if (k =? k')%string then v else lookup k rest
  end.

(* ------------------------------------------------------------------ *)
(** ** Exceptions *)

Inductive exn : Type :=
| SyntaxError      (* JSON.parse on a text that is not JSON *)
| TypeError        (* a property read on null or undefined *)
| DatabaseError.   (* a rejected or failed storage call *)

Inductive result (A : Type) : Type :=
| Ok (a : A)
| Throw (e : exn).
Arguments Ok {A} a.
Arguments Throw {A} e.

(** [v.k], and each name of a destructuring pattern [{ k, ... } = v]:
    reading a property of [null] or [undefined] throws; a value without
    the property gives [undefined].  (None of the keys read in this
    program is a built-in property of a string, an array or a date.) *)
Definition get (v : jsval) (k : string) : result jsval :=
  match v with
  | JUndefined | JNull => Throw TypeError
  | JObj props => Ok (lookup k props)
  | _ => Ok JUndefined
  end.

(* ------------------------------------------------------------------ *)
(** ** Strings: [String.prototype.split] with a one-character separator *)

Fixpoint split (sep : ascii) (s : string) : list string :=
  match s with
  | EmptyString => [EmptyString]
  | String c rest =>
      if Ascii.eqb c sep then EmptyString :: split sep rest
      else match split sep rest with
           | [] => [String c EmptyString]
           | part :: parts => String c part :: parts
           end
  end.

(* ------------------------------------------------------------------ *)
(** ** The backing store *)

Inductive resource : Type := Tenders | Tasks.

(** The collection name: the table, and the last path segment of the
    collection endpoint. *)
Definition name (t : resource) : string :=
  match t with Tenders => "tenders" | Tasks => "tasks" end.

(** The client-writable columns, in the order of the column lists of the
    INSERT and UPDATE statements. *)
Definition columns (t : resource) : list string :=
  match t with
  | Tenders => ["tender_number"; "description"; "closing_date"; "site_visits"]
  | Tasks => ["description"; "assigned_to"; "due_date"; "status"]
  end.

Record row : Type := mkRow {
  row_id : Z;
  cells : list jsval;          (* the values of [columns], in that order *)
  created_at : Z;
  updated_at : Z
}.

Record table : Type := mkTable {
  rows : list row;             (* in insertion order *)
  next_id : Z                  (* the id sequence *)
}.

(** Modelled from the spec: the schema of the tables [tenders] and [tasks]
    (the repository's DDL is not among the sources).  Each table has an
    auto-generated primary key [id], the client-writable columns, and
    [created_at] and [updated_at], both defaulting to the server's current
    time.  The spec fixes neither the type of [id] nor the column
    constraints, so the store carries them as [id_in], the input conversion
    of the id column (a text that is no id makes the statement fail), and
    [admits], which says whether a list of values can be written to the
    client-writable columns.  [reachable] says whether a statement can be
    run at all, and [now] is CURRENT_TIMESTAMP. *)
Record database : Type := mkDatabase {
  id_in : string -> option Z;
  admits : resource -> list jsval -> bool;
  reachable : bool;
  now : Z;
  tenders : table;
  tasks : table
}.

Definition table_of (t : resource) (d : database) : table :=
  match t with Tenders => tenders d | Tasks => tasks d end.

Definition set_table (t : resource) (tb : table) (d : database) : database :=
  match t with
  | Tenders => mkDatabase (id_in d) (admits d) (reachable d) (now d) tb (tasks d)
  | Tasks => mkDatabase (id_in d) (admits d) (reachable d) (now d) (tenders d) tb
  end.

(** The statements the handlers issue, with their parameter arrays. *)
Inductive statement : Type :=
| Select (t : resource)
    (* SELECT * FROM t ORDER BY created_at DESC *)
| Insert (t : resource) (values : list jsval)
    (* INSERT INTO t (columns) VALUES ($1, $2, $3, $4) RETURNING * *)
| Update (t : resource) (values : list jsval) (id : string)
    (* UPDATE t SET columns = $1..$4, updated_at = CURRENT_TIMESTAMP
       WHERE id = $5 RETURNING * *)
| Delete (t : resource) (id : string).
    (* DELETE FROM t WHERE id = $1 RETURNING * *)

(** The driver sends [undefined] as NULL.  What a column then makes of a
    value (a number written to a text column is read back as a string, a
    date is read back as a [Date]) is left out: a cell holds the value as
    it was sent. *)
Definition prepareValue (v : jsval) : jsval :=
  match v with JUndefined => JNull | _ => v end.

(** A row as the driver hands it back. *)
Definition row_json (t : resource) (r : row) : jsval :=
  JObj (("id", JNum (row_id r))
        :: combine (columns t) (cells r)
        ++ [("created_at", JDate (created_at r));
            ("updated_at", JDate (updated_at r))]).

(** ORDER BY created_at DESC, as a stable insertion sort: rows of equal
    [created_at] keep their insertion order. *)
Fixpoint insert_desc (r : row) (sorted : list row) : list row :=
  match sorted with
  | [] => [r]
  | r' :: rest =>
      if created_at r' <=? created_at r then r :: sorted
      else r' :: insert_desc r rest
  end.

Definition newest_first (rs : list row) : list row :=
  fold_right insert_desc [] rs.

Definition matches (k : Z) (r : row) : bool := row_id r =? k.

Definition overwrite (values : list jsval) (ts : Z) (r : row) : row :=
  mkRow (row_id r) (map prepareValue values) (created_at r) ts.

(** One autocommit statement: [None] when it fails (nothing is written),
    otherwise the rows it returns and the store after it.  A statement
    fails as a whole when the store is out of reach, when its id is not
    one the id column can read, or when the store does not accept its
    values, whether or not a row matches. *)
Definition execute (q : statement) (d : database)
  : option (list jsval * database) :=
  if negb (reachable d) then None else
  match q with
  | Select t =>
      Some (map (row_json t) (newest_first (rows (table_of t d))), d)
  | Insert t values =>
      if admits d t values then
        let tb := table_of t d in
        let r := mkRow (next_id tb) (map prepareValue values) (now d) (now d) in
        Some ([row_json t r],
              set_table t (mkTable (rows tb ++ [r]) (next_id tb + 1)) d)
      else None
  | Update t values id =>
      match id_in d id with
      | None => None
      | Some k =>
          if admits d t values then
            let tb := table_of t d in
            let rs := map (fun r => if matches k r
                                    then overwrite values (now d) r else r)
                          (rows tb) in
            Some (map (row_json t) (filter (matches k) rs),
                  set_table t (mkTable rs (next_id tb)) d)
          else None
      end
  | Delete t id =>
      match id_in d id with
      | None => None
      | Some k =>
          let tb := table_of t d in
          Some (map (row_json t) (filter (matches k) (rows tb)),
                set_table t
                  (mkTable (filter (fun r => negb (matches k r)) (rows tb))
                           (next_id tb)) d)
      end
  end.

(* ------------------------------------------------------------------ *)
(** ** The process a handler runs in *)

(** [new Pool({ connectionString, ssl })] *)
Record Pool : Type := mkPool {
  connectionString : option string;
  ssl : option bool            (* ssl.rejectUnauthorized, when given *)
}.

(** What a handler does to the driver, newest first. *)
Inductive effect : Type :=
| NewPool (p : Pool)           (* a pool was constructed *)
| Query (q : statement).       (* a pooled connection was used *)

Record world : Type := mkWorld {
  DATABASE_URL : option string;   (* process.env.DATABASE_URL *)
  Pool_throws : bool;             (* whether the Pool constructor throws *)
  pool : option Pool;             (* the module-level variable [pool] *)
  db : database;
  trace : list effect
}.

Definition set_pool (p : Pool) (w : world) : world :=
  mkWorld (DATABASE_URL w) (Pool_throws w) (Some p) (db w) (trace w).

Definition set_db (d : database) (w : world) : world :=
  mkWorld (DATABASE_URL w) (Pool_throws w) (pool w) d (trace w).

Definition record (e : effect) (w : world) : world :=
  mkWorld (DATABASE_URL w) (Pool_throws w) (pool w) (db w) (e :: trace w).

(** Computations that read and write the process state and may throw. *)
Definition M (A : Type) : Type := world -> result A * world.

Definition ret {A} (a : A) : M A := fun w => (Ok a, w).

Definition throw {A} (e : exn) : M A := fun w => (Throw e, w).

Definition bind {A B} (m : M A) (k : A -> M B) : M B :=
  fun w =>
    match m w with
    | (Ok a, w') => k a w'
    | (Throw e, w') => (Throw e, w')
    end.

Definition lift {A} (r : result A) : M A := fun w => (r, w).

Declare Scope handler_scope.
Delimit Scope handler_scope with handler.
Notation "x <- m ;; k" := (bind m (fun x => k))
  (at level 100, m at next level, right associativity) : handler_scope.
Local Open Scope handler_scope.

(** [try { m } catch (error) { h }] where [h] does not look at the error. *)
Definition try_catch {A} (m : M A) (h : A) : world -> A * world :=
  fun w =>
    match m w with
    | (Ok a, w') => (a, w')
    | (Throw _, w') => (h, w')
    end.

(** [new Pool(config)]: no connection is opened yet. *)
Definition new_Pool (config : Pool) : M Pool :=
  fun w =>
    if Pool_throws w then (Throw DatabaseError, w)
    else (Ok config, record (NewPool config) w).

(** [await pool.query(text, params)], giving [result.rows]. *)
Definition pool_query (q : statement) : M (list jsval) :=
  fun w =>
    match pool w with
    | None => (Throw TypeError, w)
    | Some _ =>
        let w' := record (Query q) w in
        match execute q (db w) with
        | Some (result_rows, d) => (Ok result_rows, set_db d w')
        | None => (Throw DatabaseError, w')
        end
    end.

(* ------------------------------------------------------------------ *)
(** ** Requests and responses *)

(** A request body as [JSON.parse] sees it: a text it rejects, or a text
    that denotes a value (a request without a body has [null], which
    parses to [null]). *)
Inductive body_text : Type :=
| Malformed (s : string)
| Denotes (v : jsval).

Definition JSON_parse (b : body_text) : M jsval :=
  match b with
  | Malformed _ => throw SyntaxError
  | Denotes v => ret v
  end.

(** A response body: a literal string, or [JSON.stringify(v)]. *)
Inductive text : Type :=
| Literal (s : string)
| JSON_stringify (v : jsval).

Record event : Type := mkEvent {
  httpMethod : string;
  path : string;
  body : body_text
}.

Record response : Type := mkResponse {
  statusCode : Z;
  headers : list (string * string);
  responseBody : text
}.

Definition cors_headers : list (string * string) :=
  [("Access-Control-Allow-Origin", "*");
   ("Access-Control-Allow-Headers", "Content-Type");
   ("Access-Control-Allow-Methods", "GET, POST, PUT, DELETE, OPTIONS");
   ("Content-Type", "application/json")].

(** The headers of the two responses sent before [headers] is defined. *)
Definition config_headers : list (string * string) :=
  [("Access-Control-Allow-Origin", "*");
   ("Content-Type", "application/json")].

Definition error_body (message : string) : text :=
  JSON_stringify (JObj [("error", JStr message)]).

Definition message_body (message : string) : text :=
  JSON_stringify (JObj [("message", JStr message)]).

(* ------------------------------------------------------------------ *)
(** ** The handlers *)

(** [pathParts[pathParts.length - 1] !== name ? pathParts[...] : null];
    [None] is [null]. *)
Definition extract_id (t : resource) (path : string) : option string :=
  let pathParts := split "/" path in
  let segment := last pathParts "" in
  if (segment =? name t)%string then None else Some segment.

(** [if (!id)]: [None] when [id] is [null] or the empty string (the
    branch is taken), otherwise the id. *)
Definition present (id : option string) : option string :=
  match id with
  | None => None
  | Some s => if (s =? "")%string then None else Some s
  end.

(** The parameter array of the INSERT statement, from the parsed body. *)
Definition insert_params (t : resource) (parsed : jsval) : result (list jsval) :=
  match t with
  | Tenders =>
      match get parsed "tender_number", get parsed "description",
            get parsed "closing_date", get parsed "site_visits" with
      | Ok tender_number, Ok description, Ok closing_date, Ok site_visits =>
          Ok [tender_number; description; closing_date; site_visits]
      | _, _, _, _ => Throw TypeError
      end
  | Tasks =>
      match get parsed "description", get parsed "assigned_to",
            get parsed "due_date", get parsed "status" with
      | Ok description, Ok assigned_to, Ok due_date, Ok status =>
          Ok [description; assigned_to; due_date; js_or status (JStr "PENDING")]
      | _, _, _, _ => Throw TypeError
      end
  end.

(** The first four parameters of the UPDATE statement: [updateData.c] for
    each client-writable column [c]. *)
Fixpoint read_all (updateData : jsval) (keys : list string)
  : result (list jsval) :=
  match keys with
  | [] => Ok []
  | k :: rest =>
      match get updateData k with
      | Throw e => Throw e
      | Ok v =>
          match read_all updateData rest with
          | Throw e => Throw e
          | Ok vs => Ok (v :: vs)
          end
      end
  end.

Definition update_params (t : resource) (updateData : jsval)
  : result (list jsval) :=
  read_all updateData (columns t).

Definition not_found (t : resource) : string :=
  match t with Tenders => "Tender not found" | Tasks => "Task not found" end.

Definition deleted (t : resource) : string :=
  match t with
  | Tenders => "Tender deleted successfully"
  | Tasks => "Task deleted successfully"
  end.

Definition respond (status : Z) (b : text) : response :=
  mkResponse status cors_headers b.

(** [rows[0]] *)
Definition first_row (result_rows : list jsval) : jsval :=
  nth 0 result_rows JUndefined.

(** The body of the [try] block. *)
Definition try_scope (t : resource) (ev : event) : M response :=
  let id := extract_id t (path ev) in
  if (httpMethod ev =? "GET")%string then
    getResult <- pool_query (Select t) ;;
    ret (respond 200 (JSON_stringify (JArr getResult)))
  else if (httpMethod ev =? "POST")%string then
    parsed <- JSON_parse (body ev) ;;
    params <- lift (insert_params t parsed) ;;
    postResult <- pool_query (Insert t params) ;;
    ret (respond 201 (JSON_stringify (first_row postResult)))
  else if (httpMethod ev =? "PUT")%string then
    match present id with
    | None => ret (respond 400 (error_body "ID is required for update"))
    | Some id =>
        updateData <- JSON_parse (body ev) ;;
        params <- lift (update_params t updateData) ;;
        putResult <- pool_query (Update t params id) ;;
        if (List.length putResult =? 0)%nat then
          ret (respond 404 (error_body (not_found t)))
        else
          ret (respond 200 (JSON_stringify (first_row putResult)))
    end
  else if (httpMethod ev =? "DELETE")%string then
    match present id with
    | None => ret (respond 400 (error_body "ID is required for delete"))
    | Some id =>
        deleteResult <- pool_query (Delete t id) ;;
        if (List.length deleteResult =? 0)%nat then
          ret (respond 404 (error_body (not_found t)))
        else
          ret (respond 200 (message_body (deleted t)))
    end
  else
    ret (respond 405 (error_body "Method not allowed")).

(** From the preflight test to the end of the handler: what
    [netlify/functions/tasks.js] runs on every invocation. *)
Definition dispatch (t : resource) (ev : event) : world -> response * world :=
  if (httpMethod ev =? "OPTIONS")%string then
    fun w => (respond 200 (Literal ""), w)
  else
    try_catch (try_scope t ev)
              (respond 500 (error_body "Internal server error")).

(** [!process.env.DATABASE_URL]: unset, or set to the empty string. *)
Definition no_url (url : option string) : bool :=
  match url with
  | None => true
  | Some s => (s =? "")%string
  end.

(** The pool initialisation that opens the handler of
    [netlify/functions/tenders.js]: an early response, or nothing. *)
Definition init_pool : world -> option response * world :=
  fun w =>
    match pool w with
    | Some _ => (None, w)
    | None =>
        if no_url (DATABASE_URL w) then
          (Some (mkResponse 500 config_headers
                   (error_body "Database configuration error")), w)
        else
          match new_Pool (mkPool (DATABASE_URL w) (Some false)) w with
          | (Ok p, w') => (None, set_pool p w')
          | (Throw _, w') =>
              (Some (mkResponse 500 config_headers
                       (error_body "Database connection error")), w')
          end
    end.

(** The two styles of pool initialisation in the repository. *)
Inductive style : Type :=
| AtLoad      (* [const pool = new Pool(...)] when the module is loaded *)
| OnDemand.   (* [let pool;], set by the first invocation that finds it unset *)

(** [exports.handler] *)
Definition handler (s : style) (t : resource) (ev : event)
  : world -> response * world :=
  match s with
  | AtLoad => dispatch t ev
  | OnDemand =>
      fun w =>
        match init_pool w with
        | (Some early, w') => (early, w')
        | (None, w') => dispatch t ev w'
        end
  end.

(** Loading a module of the [AtLoad] style:
    [const pool = new Pool({ connectionString: process.env.DATABASE_URL })]. *)
Definition load (w : world) : result unit * world :=
  match new_Pool (mkPool (DATABASE_URL w) None) w with
  | (Ok p, w') => (Ok tt, set_pool p w')
  | (Throw e, w') => (Throw e, w')
  end.

(** The four handler files. *)
Definition tasks_handler := handler AtLoad Tasks.         (* netlify/functions/tasks.js *)
Definition tenders_handler := handler OnDemand Tenders.   (* netlify/functions/tenders.js *)
Definition tasks_handler_on_demand := handler OnDemand Tasks.
Definition tenders_handler_at_load := handler AtLoad Tenders.

(* ------------------------------------------------------------------ *)
(** ** The client: record transformers and request bodies ([api.js]) *)

(** [transformTender(dbTender)] *)
Definition transformTender (dbTender : jsval) : result jsval :=
  match get dbTender "id", get dbTender "tender_number",
        get dbTender "description", get dbTender "closing_date",
        get dbTender "site_visits", get dbTender "created_at" with
  | Ok id, Ok tender_number, Ok description, Ok closing_date,
    Ok site_visits, Ok created_at =>
      Ok (JObj [("id", id);
                ("tenderNumber", tender_number);
                ("description", description);
                ("closingDate", closing_date);
                ("siteVisits", site_visits);
                ("createdAt", created_at)])
  | _, _, _, _, _, _ => Throw TypeError
  end.

(** [transformTask(dbTask)] *)
Definition transformTask (dbTask : jsval) : result jsval :=
  match get dbTask "id", get dbTask "description", get dbTask "assigned_to",
        get dbTask "due_date", get dbTask "status",
        get dbTask "created_at" with
  | Ok id, Ok description, Ok assigned_to, Ok due_date, Ok status,
    Ok created_at =>
      Ok (JObj [("id", id);
                ("description", description);
                ("assignedTo", assigned_to);
                ("dueDate", due_date);
                ("status", status);
                ("createdAt", created_at)])
  | _, _, _, _, _, _ => Throw TypeError
  end.

(** The object that [tenderAPI.create] and [tenderAPI.update] serialise as
    the request body. *)
Definition tender_body (tender : jsval) : result jsval :=
  match get tender "tenderNumber", get tender "description",
        get tender "closingDate", get tender "siteVisits" with
  | Ok tenderNumber, Ok description, Ok closingDate, Ok siteVisits =>
      Ok (JObj [("tender_number", tenderNumber);
                ("description", description);
                ("closing_date", closingDate);
                ("site_visits", siteVisits)])
  | _, _, _, _ => Throw TypeError
  end.

(** The object that [taskAPI.create] and [taskAPI.update] serialise as the
    request body. *)
Definition task_body (task : jsval) : result jsval :=
  match get task "description", get task "assignedTo",
        get task "dueDate", get task "status" with
  | Ok description, Ok assignedTo, Ok dueDate, Ok status =>
      Ok (JObj [("description", description);
                ("assigned_to", assignedTo);
                ("due_date", dueDate);
                ("status", status)])
  | _, _, _, _ => Throw TypeError
  end.

Definition transform (t : resource) : jsval -> result jsval :=
  match t with Tenders => transformTender | Tasks => transformTask end.

Definition request_body (t : resource) : jsval -> result jsval :=
  match t with Tenders => tender_body | Tasks => task_body end.

(** The fields of a stored record. *)
Definition storage_fields (t : resource) : list string :=
  "id" :: columns t ++ ["created_at"; "updated_at"].

(** A function on records carries a storage field when one key of its
    result always holds the value the record has in that field. *)
Definition carries (f : jsval -> result jsval) (field : string) : Prop :=
  exists key, forall props,
    exists out, f (JObj props) = Ok out /\ get out key = Ok (lookup field props).

(* ------------------------------------------------------------------ *)
(** ** When a handler can reach its try scope *)

Definition is_some {A} (o : option A) : bool :=
  match o with Some _ => true | None => false end.

(** The pool is there when the try scope starts: a loaded module of the
    [AtLoad] style has it; with [OnDemand] it exists already or can be
    built now. *)
Definition ready (s : style) (w : world) : bool :=
  match s with
  | AtLoad => is_some (pool w)
  | OnDemand =>
      is_some (pool w)
      || (negb (no_url (DATABASE_URL w)) && negb (Pool_throws w))
  end.

(** The state in which the try scope starts. *)
Definition after_init (s : style) (w : world) : world :=
  match s with
  | AtLoad => w
  | OnDemand => snd (init_pool w)
  end.

(** The statements among the effects. *)
Fixpoint queries (tr : list effect) : list statement :=
  match tr with
  | [] => []
  | Query q :: rest => q :: queries rest
  | NewPool _ :: rest => queries rest
  end.

(* ------------------------------------------------------------------ *)
(** ** A store to run the handlers on *)

Fixpoint digits (s : string) (acc : Z) : option Z :=
  match s with
  | EmptyString => Some acc
  | String c rest =>
      let n := Z.of_nat (nat_of_ascii c) in
      if (48 <=? n) && (n <=? 57) then digits rest (10 * acc + (n - 48))
      else None
  end.

(** The input conversion of an integer id column. *)
Definition serial_in (s : string) : option Z :=
  match s with
  | EmptyString => None
  | _ => digits s 0
  end.

Definition ship_report : row :=
  mkRow 1 [JStr "Ship report"; JStr "Alex"; JStr "2025-03-01"; JStr "SENT"]
        100 250.

Definition call_supplier : row :=
  mkRow 2 [JStr "Call supplier"; JStr "Sam"; JStr "2025-04-15"; JStr "PENDING"]
        300 300.

Definition road_works : row :=
  mkRow 1 [JStr "T-17"; JStr "Road works"; JStr "2025-06-30"; JStr "Site A; Site B"]
        50 50.

Definition store : database :=
  mkDatabase serial_in (fun _ _ => true) true 1000
             (mkTable [road_works] 2)
             (mkTable [ship_report; call_supplier] 3).

(** A process of the [OnDemand] style before its first invocation. *)
Definition fresh : world :=
  mkWorld (Some "postgres://db") false None store [].

(** The same process without the connection string. *)
Definition fresh_unset : world :=
  mkWorld None false None store [].

(** Processes of the [AtLoad] style, once the module is loaded. *)
Definition loaded : world := snd (load fresh).

Definition loaded_unset : world := snd (load fresh_unset).

(** [v.k] where the read cannot throw. *)
Definition prop (v : jsval) (k : string) : jsval :=
  match get v k with Ok x => x | Throw _ => JUndefined end.

(** The keys a request body is built from. *)
Definition form_fields (t : resource) : list string :=
  match t with
  | Tenders => ["tenderNumber"; "description"; "closingDate"; "siteVisits"]
  | Tasks => ["description"; "assignedTo"; "dueDate"; "status"]
  end.

(** Newest first. *)
Definition newer (a b : row) : Prop := created_at b <= created_at a.

(* ------------------------------------------------------------------ *)
(** ** The client: URLs and [fetchAPI] ([api.js]) *)

(** [s.startsWith(pat)] *)
Fixpoint startsWith (pat s : string) : bool :=
  match pat, s with
  | EmptyString, _ => true
  | String _ _, EmptyString => false
  | String a pat', String b s' => Ascii.eqb a b && startsWith pat' s'
  end.

(** [s.includes(pat)] *)
Fixpoint includes (pat s : string) : bool :=
  startsWith pat s
  || match s with
     | EmptyString => false
     | String _ rest => includes pat rest
     end.

(** [s.substring(n)] *)
Fixpoint substring_from (n : nat) (s : string) : string :=
  match n, s with
  | O, _ => s
  | S _, EmptyString => EmptyString
  | S n', String _ rest => substring_from n' rest
  end.

(** [s.replace(pat, rep)] for a text [pat] and a replacement without [$]:
    the first occurrence of [pat] gives way to [rep]. *)
Fixpoint replace (pat rep s : string) : string :=
  if startsWith pat s
  then (rep ++ substring_from (String.length pat) s)%string
  else match s with
       | EmptyString => EmptyString
       | String c rest => String c (replace pat rep rest)
       end.

(** [import.meta.env.VITE_API_URL || 'http://localhost:3001/api'] *)
Definition API_BASE_URL (VITE_API_URL : option string) : string :=
  match VITE_API_URL with
  | Some url => if (url =? "")%string then "http://localhost:3001/api" else url
  | None => "http://localhost:3001/api"
  end.

Definition isNetlifyFunctions (VITE_API_URL : option string) : bool :=
  includes "/.netlify/functions" (API_BASE_URL VITE_API_URL).

Definition buildUrl (VITE_API_URL : option string) (endpoint : string) : string :=
  if isNetlifyFunctions VITE_API_URL
  then (API_BASE_URL VITE_API_URL ++ replace "/api" "" endpoint)%string
  else (API_BASE_URL VITE_API_URL ++ endpoint)%string.

(** Why a promise is rejected: something thrown by the language or the
    platform ([fetch] rejects with a TypeError when the network fails), or
    [new Error(message)], kept with the value the message is made of. *)
Inductive reason : Type :=
| Thrown (e : exn)
| Error (message : jsval).

Inductive promise (A : Type) : Type :=
| Fulfilled (a : A)
| Rejected (why : reason).
Arguments Fulfilled {A} a.
Arguments Rejected {A} why.

(** The [options] of [fetchAPI]: this module passes a method and a body,
    or neither. *)
Record RequestInit : Type := mkInit {
  method : option string;
  sent : option text
}.

(** What [fetch] is called with. *)
Record Request : Type := mkRequest {
  url : string;
  request_headers : list (string * string);
  init : RequestInit
}.

(** What [fetch] resolves with: the status, and the body as
    [response.json()] will see it. *)
Record Response : Type := mkHttpResponse {
  status : Z;
  received : body_text
}.

(** [response.ok] *)
Definition ok (response : Response) : bool :=
  (200 <=? status response) && (status response <=? 299).

(** [response.json()] *)
Definition json (response : Response) : promise jsval :=
  match received response with
  | Malformed _ => Rejected (Thrown SyntaxError)
  | Denotes v => Fulfilled v
  end.

(** [fetchAPI(endpoint, options)], given what [fetch] does. *)
Definition fetchAPI (fetch : Request -> promise Response)
           (VITE_API_URL : option string)
           (endpoint : string) (options : RequestInit) : promise jsval :=
  match fetch (mkRequest (buildUrl VITE_API_URL endpoint)
                         [("Content-Type", "application/json")] options) with
  | Rejected why => Rejected why
  | Fulfilled response =>
      if negb (ok response) then
        match json response with
        | Rejected why => Rejected why
        | Fulfilled error =>
            match get error "error" with
            | Throw e => Rejected (Thrown e)
            | Ok message =>
                Rejected (Error (js_or message (JStr "API request failed")))
            end
        end
      else json response
  end.

(** The endpoint of a collection and of one of its items; the id is given
    as the template literal prints it. *)
Definition collection (t : resource) : string := ("/" ++ name t)%string.

Definition item (t : resource) (id : string) : string :=
  ("/" ++ name t ++ "/" ++ id)%string.

(** [tenderAPI] and [taskAPI]: [getAll], [create], [update], [delete]. *)
Definition getAll (fetch : Request -> promise Response)
           (VITE_API_URL : option string) (t : resource) : promise jsval :=
  fetchAPI fetch VITE_API_URL (collection t) (mkInit None None).

Definition create (fetch : Request -> promise Response)
           (VITE_API_URL : option string) (t : resource) (entity : jsval)
  : promise jsval :=
  match request_body t entity with
  | Throw e => Rejected (Thrown e)
  | Ok payload =>
      fetchAPI fetch VITE_API_URL (collection t)
               (mkInit (Some "POST") (Some (JSON_stringify payload)))
  end.

Definition update (fetch : Request -> promise Response)
           (VITE_API_URL : option string) (t : resource)
           (id : string) (entity : jsval) : promise jsval :=
  match request_body t entity with
  | Throw e => Rejected (Thrown e)
  | Ok payload =>
      fetchAPI fetch VITE_API_URL (item t id)
               (mkInit (Some "PUT") (Some (JSON_stringify payload)))
  end.

Definition delete (fetch : Request -> promise Response)
           (VITE_API_URL : option string) (t : resource) (id : string)
  : promise jsval :=
  fetchAPI fetch VITE_API_URL (item t id) (mkInit (Some "DELETE") None).

(* ------------------------------------------------------------------ *)
(** ** Between [fetch] and [exports.handler] *)

(** The platform is not part of the repository.  It hands a request to
    the handler as an event (the method, [GET] when none is given; the path
    of the URL, of which the handler reads the last segment, which is the
    last segment of the URL; the body text, [null] when there is none) and
    hands the handler's answer back as the response.  A text written by
    [JSON.stringify] is read by [JSON.parse] as [reparse] says.
    [toISOString] is [Date.prototype.toISOString]. *)
Section Platform.
Variable toISOString : Z -> string.

(** [JSON.parse(JSON.stringify(v))]; [None] when [JSON.stringify(v)] is
    [undefined] and there is no text.  A date is written as its ISO
    string, an [undefined] element of an array as [null], and a property
    whose value is [undefined] is left out. *)
Fixpoint reparse (v : jsval) : option jsval :=
  match v with
  | JUndefined => None
  | JNull | JBool _ | JNum _ | JStr _ => Some v
  | JDate t => Some (JStr (toISOString t))
  | JArr items =>
      Some (JArr (map (fun x => match reparse x with
                                | Some y => y
                                | None => JNull
                                end) items))
  | JObj props =>
      Some (JObj ((fix each (ps : list (string * jsval)) :=
                     match ps with
                     | [] => []
                     | (k, x) :: rest =>
                         match reparse x with
                         | Some y => (k, y) :: each rest
                         | None => each rest
                         end
                     end) props))
  end.

(** A body text as its reader sees it.  A literal body stands for a text
    that is not JSON (the one literal body of the program is the empty
    text); so does the missing text of [JSON.stringify(undefined)]. *)
Definition as_received (b : text) : body_text :=
  match b with
  | Literal s => Malformed s
  | JSON_stringify v =>
      match reparse v with
      | Some v' => Denotes v'
      | None => Malformed ""
      end
  end.

Definition event_of (req : Request) : event :=
  mkEvent (match method (init req) with Some m => m | None => "GET" end)
          (url req)
          (match sent (init req) with
           | Some b => as_received b
           | None => Denotes JNull
           end).

Definition deliver (r : response) : Response :=
  mkHttpResponse (statusCode r) (as_received (responseBody r)).

(** [fetch], when the handler of resource [t] answers in the state [w]. *)
Definition served (s : style) (t : resource) (w : world)
  : Request -> promise Response :=
  fun req => Fulfilled (deliver (fst (handler s t (event_of req) w))).

End Platform.

(* ------------------------------------------------------------------ *)
(** ** Site visits in the tender list (the two revisions of the tender
    list that edit them one by one) *)

(** The texts of the form are strings of UTF-16 code units, which is what
    [split], [trim], [startsWith] and [substring] count in. *)
Definition ustring : Type := list N.

(** An ASCII literal as code units. *)
Definition units (s : string) : ustring :=
  map N_of_ascii (list_ascii_of_string s).

Definition semicolon : N := 59.

(** The check mark U+2713 that marks a visit as done. *)
Definition check_mark : N := 10003.

(** [s.split(';')]: never empty, and [['']] for the empty string. *)
Fixpoint usplit (sep : N) (s : ustring) : list ustring :=
  match s with
  | [] => [[]]
  | c :: rest =>
      if (c =? sep)%N then [] :: usplit sep rest
      else match usplit sep rest with
           | [] => [[c]]
           | part :: parts => (c :: part) :: parts
           end
  end.

(** White space and line terminators, which [trim] removes. *)
Definition is_space (c : N) : bool :=
  ((9 <=? c) && (c <=? 13)
   || (c =? 32) || (c =? 160) || (c =? 5760)
   || (8192 <=? c) && (c <=? 8202)
   || (c =? 8232) || (c =? 8233) || (c =? 8239) || (c =? 8287)
   || (c =? 12288) || (c =? 65279))%N.

Fixpoint trimStart (s : ustring) : ustring :=
  match s with
  | [] => []
  | c :: rest => if is_space c then trimStart rest else s
  end.

(** [s.trim()] *)
Definition trim (s : ustring) : ustring :=
  rev (trimStart (rev (trimStart s))).

(** [s === ''] *)
Definition is_empty (s : ustring) : bool :=
  match s with [] => true | _ :: _ => false end.

(** [a.join(sep)] *)
Fixpoint join (sep : ustring) (a : list ustring) : ustring :=
  match a with
  | [] => []
  | [x] => x
  | x :: rest => x ++ sep ++ join sep rest
  end.

(** The [visits] that [_renderSiteVisits] shows, one tag each:
    [siteVisits.split(';').map(visit => visit.trim())
               .filter(visit => visit !== '')]. *)
Definition shown_visits (siteVisits : ustring) : list ustring :=
  filter (fun visit => negb (is_empty visit))
         (map trim (usplit semicolon siteVisits)).

(** [_updateSiteVisitsFormData]: the new [formData.siteVisits]. *)
Definition joined_visits (siteVisitInputs : list ustring) : ustring :=
  join (units "; ")
       (filter (fun visit => negb (is_empty (trim visit))) siteVisitInputs).

(** The [siteVisitInputs] that [_editTender] makes of a tender's
    [siteVisits], a text or, as [None], [null] or [undefined]. *)
Definition inputs_of (siteVisits : option ustring) : list ustring :=
  match siteVisits with
  | Some text =>
      if negb (is_empty text) && negb (is_empty (trim text))
      then map trim (usplit semicolon text)
      else [[]]
  | None => [[]]
  end.

(** The two fields of the component that the site-visit methods write. *)
Record visits_form : Type := mkVisitsForm {
  siteVisitInputs : list ustring;
  siteVisits : ustring          (* formData.siteVisits *)
}.

(** [a.filter((_, i) => i !== index)] *)
Fixpoint without_index (index : nat) (a : list ustring) : list ustring :=
  match a, index with
  | [], _ => []
  | _ :: rest, O => rest
  | x :: rest, S i => x :: without_index i rest
  end.

(** [a.map((visit, i) => i === index ? value : visit)] *)
Fixpoint with_index (index : nat) (value : ustring) (a : list ustring)
  : list ustring :=
  match a, index with
  | [], _ => []
  | _ :: rest, O => value :: rest
  | x :: rest, S i => x :: with_index i value rest
  end.

Definition _resetForm (f : visits_form) : visits_form :=
  mkVisitsForm [[]] [].

Definition _addSiteVisit (f : visits_form) : visits_form :=
  mkVisitsForm (siteVisitInputs f ++ [[]]) (siteVisits f).

Definition _removeSiteVisit (index : nat) (f : visits_form) : visits_form :=
  if (1 <? List.length (siteVisitInputs f))%nat then
    let inputs := without_index index (siteVisitInputs f) in
    mkVisitsForm inputs (joined_visits inputs)
  else f.

(** [_updateSiteVisit(index, value, wasCompleted)]; the earlier revision
    has no [wasCompleted], which is the call with [false]. *)
Definition _updateSiteVisit
  (index : nat) (value : ustring) (wasCompleted : bool) (f : visits_form)
  : visits_form :=
  let updatedValue := if wasCompleted then check_mark :: value else value in
  let inputs := with_index index updatedValue (siteVisitInputs f) in
  mkVisitsForm inputs (joined_visits inputs).

(** The part of [_editTender] that fills the two fields:
    [siteVisits: tender.siteVisits || ''] and the inputs. *)
Definition _editTender (tender_siteVisits : option ustring) : visits_form :=
  mkVisitsForm (inputs_of tender_siteVisits)
               (match tender_siteVisits with Some text => text | None => [] end).

(** [visit.startsWith(check mark)] *)
Definition isCompleted (visit : ustring) : bool :=
  match visit with
  | c :: _ => (c =? check_mark)%N
  | [] => false
  end.

(** [visits[index] = value]: past the end the array grows, and [join]
    writes the elements in between as empty. *)
Fixpoint assign (index : nat) (value : ustring) (a : list ustring)
  : list ustring :=
  match a, index with
  | [], O => [value]
  | [], S i => [] :: assign i value []
  | _ :: rest, O => value :: rest
  | x :: rest, S i => x :: assign i value rest
  end.

(** The [updatedSiteVisits] that [_toggleSiteVisitStatus] computes from the
    tender's [siteVisits] for a click on the visit shown at [index]. *)
Definition toggled_visits
  (index : nat) (currentVisit : ustring) (siteVisits : ustring) : ustring :=
  let visits := map trim (usplit semicolon siteVisits) in
  join (units "; ")
       (assign index
               (if isCompleted currentVisit
                then trim (tl currentVisit)
                else check_mark :: currentVisit)
               visits).





(* ------------------------------------------------------------------ *)
(** ** The task list component ([task-list.js]) *)

(** [a === b].  Two values that are objects are equal only when they are
    one object, which values read from JSON never are: the comparison of
    two arrays, objects or dates is taken to be [false]. *)
Definition strict_equal (a b : jsval) : bool :=
  match a, b with
  | JUndefined, JUndefined => true
  | JNull, JNull => true
  | JBool x, JBool y => Bool.eqb x y
  | JNum x, JNum y => x =? y
  | JStr x, JStr y => (x =? y)%string
  | _, _ => false
  end.

(** [a.map(f)] and [a.filter(f)] for a callback that may throw: the first
    throw ends the call. *)
Fixpoint map_throwing {A B} (f : A -> result B) (a : list A) : result (list B) :=
  match a with
  | [] => Ok []
  | x :: rest =>
      match f x with
      | Throw e => Throw e
      | Ok y =>
          match map_throwing f rest with
          | Throw e => Throw e
          | Ok ys => Ok (y :: ys)
          end
      end
  end.

Fixpoint filter_throwing {A} (f : A -> result bool) (a : list A)
  : result (list A) :=
  match a with
  | [] => Ok []
  | x :: rest =>
      match f x with
      | Throw e => Throw e
      | Ok keep =>
          match filter_throwing f rest with
          | Throw e => Throw e
          | Ok xs => Ok (if keep then x :: xs else xs)
          end
      end
  end.

Module TaskList.

Record state : Type := mkState {
  tasks : list jsval;
  showForm : bool;
  formData : jsval;
  loading : bool;
  error : jsval;
  editingId : jsval
}.

(** The calls the component makes on [taskAPI]. *)
Inductive call : Type :=
| GetAll
| Create (task : jsval)
| Update (id : jsval) (task : jsval)
| Delete (id : jsval).

Definition empty_form : jsval :=
  JObj [("description", JStr ""); ("assignedTo", JStr "");
        ("dueDate", JStr ""); ("status", JStr "PENDING")].

Definition _resetForm (st : state) : state :=
  mkState (tasks st) (showForm st) empty_form (loading st) (error st)
          (editingId st).

Definition _cancelForm (st : state) : state :=
  mkState (tasks st) false empty_form (loading st) (error st) JNull.

Definition _toggleForm (st : state) : state :=
  if showForm st
  then mkState (tasks st) false empty_form (loading st) (error st)
               (editingId st)
  else mkState (tasks st) true (formData st) (loading st) (error st)
               (editingId st).

Definition set_tasks (ts : list jsval) (st : state) : state :=
  mkState ts (showForm st) (formData st) (loading st) (error st)
          (editingId st).

Definition set_error (e : jsval) (st : state) : state :=
  mkState (tasks st) (showForm st) (formData st) (loading st) e
          (editingId st).

Definition set_loading (b : bool) (st : state) : state :=
  mkState (tasks st) (showForm st) (formData st) b (error st)
          (editingId st).

(** [t => t.id === id] *)
Definition has_id (id : jsval) (t : jsval) : result bool :=
  match get t "id" with
  | Ok v => Ok (strict_equal v id)
  | Throw e => Throw e
  end.

(** [dbTasks.map(transformTask)] *)
Definition transform_all (dbTasks : jsval) : result (list jsval) :=
  match dbTasks with
  | JArr items => map_throwing transformTask items
  | _ => Throw TypeError
  end.

(** [_loadTasks()] *)
Definition _loadTasks (taskAPI : call -> promise jsval) (st : state) : state :=
  let st := set_error JNull (set_loading true st) in
  let st :=
    match taskAPI GetAll with
    | Fulfilled dbTasks =>
        match transform_all dbTasks with
        | Ok ts => set_tasks ts st
        | Throw _ => set_error (JStr "Failed to load tasks. Please try again.") st
        end
    | Rejected _ => set_error (JStr "Failed to load tasks. Please try again.") st
    end in
  set_loading false st.

(** The message of the [catch] of [_handleSubmit]. *)
Definition submit_failed (st : state) : jsval :=
  if truthy (editingId st)
  then JStr "Failed to update task. Please try again."
  else JStr "Failed to create task. Please try again.".

(** The call [_handleSubmit] makes: an update when [editingId] is truthy,
    a creation otherwise. *)
Definition submit_call (st : state) : call :=
  if truthy (editingId st)
  then Update (editingId st) (formData st)
  else Create (formData st).

(** [_handleSubmit(e)] *)
Definition _handleSubmit (taskAPI : call -> promise jsval) (st : state) : state :=
  let st := set_error JNull st in
  if truthy (editingId st) then
    match taskAPI (Update (editingId st) (formData st)) with
    | Rejected _ => set_error (submit_failed st) st
    | Fulfilled dbTask =>
        match transformTask dbTask with
        | Throw _ => set_error (submit_failed st) st
        | Ok updatedTask =>
            match map_throwing
                    (fun t => match has_id (editingId st) t with
                              | Ok same => Ok (if same then updatedTask else t)
                              | Throw e => Throw e
                              end) (tasks st) with
            | Throw _ => set_error (submit_failed st) st
            | Ok ts => _cancelForm (set_tasks ts st)
            end
        end
    end
  else
    match taskAPI (Create (formData st)) with
    | Rejected _ => set_error (submit_failed st) st
    | Fulfilled dbTask =>
        match transformTask dbTask with
        | Throw _ => set_error (submit_failed st) st
        | Ok newTask => _cancelForm (set_tasks (newTask :: tasks st) st)
        end
    end.

(** [_deleteTask(id)]; [confirmed] is the answer to [confirm(...)]. *)
Definition _deleteTask (taskAPI : call -> promise jsval)
           (confirmed : bool) (id : jsval) (st : state) : state :=
  if confirmed then
    let st := set_error JNull st in
    match taskAPI (Delete id) with
    | Rejected _ =>
        set_error (JStr "Failed to delete task. Please try again.") st
    | Fulfilled _ =>
        match filter_throwing
                (fun t => match has_id id t with
                          | Ok same => Ok (negb same)
                          | Throw e => Throw e
                          end) (tasks st) with
        | Throw _ =>
            set_error (JStr "Failed to delete task. Please try again.") st
        | Ok ts => set_tasks ts st
        end
    end
  else st.

End TaskList.

(* ------------------------------------------------------------------ *)
(** ** Vocabulary of the statements below *)

(** A table after a DELETE of the rows with id [k]. *)
Definition without (k : Z) (tb : table) : table :=
  mkTable (filter (fun r => negb (matches k r)) (rows tb)) (next_id tb).

(** A response identifies a row when it is the JSON of a value whose [id]
    is the row's. *)
Definition identifies (b : text) (r : row) : Prop :=
  exists v, b = JSON_stringify v /\ get v "id" = Ok (JNum (row_id r)).

(** The row an INSERT into [tasks] makes of a parsed body and a status. *)
Definition created_task (v status : jsval) (d : database) : row :=
  mkRow (next_id (tasks d))
        (map prepareValue
             [prop v "description"; prop v "assigned_to"; prop v "due_date";
              status])
        (now d) (now d).

(** The rows of a table after an UPDATE of the rows with id [k]. *)
Definition updated (k : Z) (values : list jsval) (ts : Z) (rs : list row)
  : list row :=
  map (fun r => if matches k r then overwrite values ts r else r) rs.

(** The answer of the [catch] block. *)
Definition internal_error : response :=
  respond 500 (error_body "Internal server error").

(** The requests that reach a storage call unless something fails first. *)
Definition touches_storage (t : resource) (ev : event) : Prop :=
  httpMethod ev = "GET"
  \/ httpMethod ev = "POST"
  \/ (httpMethod ev = "PUT" /\ present (extract_id t (path ev)) <> None)
  \/ (httpMethod ev = "DELETE" /\ present (extract_id t (path ev)) <> None).

(** The requests that parse their body. *)
Definition parses_body (t : resource) (ev : event) : Prop :=
  httpMethod ev = "POST"
  \/ (httpMethod ev = "PUT" /\ present (extract_id t (path ev)) <> None).

(** Ids are unique and below the sequence: no id is used twice, and none
    is used again after its row is gone. *)
Definition well_keyed (tb : table) : Prop :=
  NoDup (map row_id (rows tb))
  /\ Forall (fun r => row_id r < next_id tb) (rows tb).

(** Whether a character occurs in a string. *)
Fixpoint occurs (c : ascii) (s : string) : bool :=
  match s with
  | EmptyString => false
  | String c' rest => Ascii.eqb c' c || occurs c rest
  end.

(** The table a statement reads or writes. *)
Definition table_name (q : statement) : resource :=
  match q with
  | Select t | Insert t _ | Update t _ _ | Delete t _ => t
  end.

(** The pools constructed so far. *)
Fixpoint pools_built (tr : list effect) : nat :=
  match tr with
  | [] => 0%nat
  | NewPool _ :: rest => S (pools_built rest)
  | Query _ :: rest => pools_built rest
  end.

(** The methods with a branch of their own. *)
Definition supported : list string :=
  ["OPTIONS"; "GET"; "POST"; "PUT"; "DELETE"].

(** What a request leaves of a row [r]: the row [r'] has its id and its
    creation time and, if the request wrote to it, the values and the time
    of the write. *)
Definition kept_or_rewritten
  (k : Z) (cells' : list jsval) (ts : Z) (r r' : row) : Prop :=
  row_id r' = row_id r
  /\ created_at r' = created_at r
  /\ (if matches k r
      then cells r' = cells' /\ updated_at r' = ts
      else r' = r).

(** No row is stamped later than the clock shows, and none was updated
    before it was created. *)
Definition stamped (ts : Z) (tb : table) : Prop :=
  Forall (fun r => created_at r <= updated_at r /\ updated_at r <= ts)
         (rows tb).

(** The non-blank inputs, which [_updateSiteVisitsFormData] keeps. *)
Definition kept_visits (inputs : list ustring) : list ustring :=
  filter (fun visit => negb (is_empty (trim visit))) inputs.

(** A text without surrounding white space. *)
Definition trimmed (s : ustring) : Prop :=
  match s with
  | [] => True
  | c :: _ => is_space c = false /\ is_space (last s c) = false
  end.

(** What a click makes of a visit: the check mark goes or comes. *)
Definition toggle (visit : ustring) : ustring :=
  if isCompleted visit then trim (tl visit) else check_mark :: visit.

(* ================================================================== *)
(** * Properties *)

(* ------------------------------------------------------------------ *)
(** ** The store *)

Lemma set_table_same (t : resource) (d : database) :
  set_table t (table_of t d) d = d.
Proof. destruct t, d; reflexivity. Qed.

Lemma table_of_set_table (t : resource) (tb : table) (d : database) :
  table_of t (set_table t tb d) = tb.
Proof. destruct t; reflexivity. Qed.

Lemma table_eta (tb : table) : mkTable (rows tb) (next_id tb) = tb.
Proof. destruct tb; reflexivity. Qed.

Section Matching.
Variable k : Z.

Lemma filter_unmatched (rs : list row) :
  existsb (matches k) rs = false -> filter (matches k) rs = [].
Proof.
  induction rs as [|r rs IH]; simpl; [reflexivity|].
  intros H. apply orb_false_iff in H as [Hr Hrs].
  rewrite Hr. auto.
Qed.

Lemma filter_others (rs : list row) :
  existsb (matches k) rs = false ->
  filter (fun r => negb (matches k r)) rs = rs.
Proof.
  induction rs as [|r rs IH]; simpl; [reflexivity|].
  intros H. apply orb_false_iff in H as [Hr Hrs].
  rewrite Hr. simpl. f_equal. auto.
Qed.

Lemma map_unmatched (f : row -> row) (rs : list row) :
  existsb (matches k) rs = false ->
  map (fun r => if matches k r then f r else r) rs = rs.
Proof.
  induction rs as [|r rs IH]; simpl; [reflexivity|].
  intros H. apply orb_false_iff in H as [Hr Hrs].
  rewrite Hr. f_equal. auto.
Qed.

Lemma filter_matched (rs : list row) :
  existsb (matches k) rs = true -> filter (matches k) rs <> [].
Proof.
  induction rs as [|r rs IH]; simpl; [discriminate|].
  destruct (matches k r); [discriminate | exact IH].
Qed.

Lemma gone_after_delete (rs : list row) :
  existsb (matches k) (filter (fun r => negb (matches k r)) rs) = false.
Proof.
  induction rs as [|r rs IH]; simpl; [reflexivity|].
  destruct (matches k r) eqn:E; simpl; [exact IH|].
  rewrite E. exact IH.
Qed.

(** An UPDATE returns as many rows as match: it keeps every id. *)
Lemma filter_overwritten (values : list jsval) (ts : Z) (rs : list row) :
  filter (matches k)
         (map (fun r => if matches k r then overwrite values ts r else r) rs)
  = map (overwrite values ts) (filter (matches k) rs).
Proof.
  induction rs as [|r rs IH]; simpl; [reflexivity|].
  destruct (matches k r) eqn:E.
  - unfold matches in *. simpl. rewrite E. simpl. f_equal. exact IH.
  - rewrite E. exact IH.
Qed.
End Matching.

(* ------------------------------------------------------------------ *)
(** ** Pool initialisation *)

Lemma handler_ready (s : style) (t : resource) (ev : event) (w : world) :
  ready s w = true -> handler s t ev w = dispatch t ev (after_init s w).
Proof.
  destruct s; simpl; [reflexivity|].
  unfold init_pool, new_Pool. destruct (pool w); simpl; [reflexivity|].
  intros H. apply andb_true_iff in H as [Hu Hp].
  apply negb_true_iff in Hu, Hp. rewrite Hu, Hp. reflexivity.
Qed.

Lemma pool_after_init (s : style) (w : world) :
  ready s w = true -> exists p, pool (after_init s w) = Some p.
Proof.
  destruct s; simpl; unfold init_pool, new_Pool.
  - destruct (pool w) as [p|]; [eauto | discriminate].
  - destruct (pool w) as [p|] eqn:E; simpl.
    + rewrite E. eauto.
    + intros H. apply andb_true_iff in H as [Hu Hp].
      apply negb_true_iff in Hu, Hp. rewrite Hu, Hp. simpl. eauto.
Qed.

Lemma db_after_init (s : style) (w : world) : db (after_init s w) = db w.
Proof.
  destruct s; simpl; [reflexivity|]. unfold init_pool, new_Pool.
  destruct (pool w); [reflexivity|].
  destruct (no_url _); [reflexivity|].
  destruct (Pool_throws w); reflexivity.
Qed.

Lemma queries_after_init (s : style) (w : world) :
  queries (trace (after_init s w)) = queries (trace w).
Proof.
  destruct s; simpl; [reflexivity|]. unfold init_pool, new_Pool.
  destruct (pool w); [reflexivity|].
  destruct (no_url _); [reflexivity|].
  destruct (Pool_throws w); reflexivity.
Qed.

(** Every invocation either answers from the pool initialisation, without
    touching the store, or dispatches in the state the initialisation left. *)
Lemma handler_cases (s : style) (t : resource) (ev : event) (w : world) :
  handler s t ev w = dispatch t ev (after_init s w)
  \/ (db (snd (handler s t ev w)) = db w
      /\ queries (trace (snd (handler s t ev w))) = queries (trace w)
      /\ statusCode (fst (handler s t ev w)) = 500
      /\ ready s w = false).
Proof.
  destruct s; simpl; [left; reflexivity|].
  unfold init_pool, new_Pool.
  destruct (pool w); simpl; [left; reflexivity|].
  destruct (no_url _); simpl; [right; auto|].
  destruct (Pool_throws w); simpl; [right; auto | left; reflexivity].
Qed.

(* ------------------------------------------------------------------ *)
(** ** Storage calls *)

Lemma pool_query_run (q : statement) (w : world) (p : Pool) :
  pool w = Some p ->
  pool_query q w =
    match execute q (db w) with
    | Some (result_rows, d) => (Ok result_rows, set_db d (record (Query q) w))
    | None => (Throw DatabaseError, record (Query q) w)
    end.
Proof. intros H. unfold pool_query. rewrite H. reflexivity. Qed.

(** A storage call that fails writes nothing; one that succeeds leaves the
    store [execute] computes. *)
Lemma db_pool_query (q : statement) (w : world) :
  db (snd (pool_query q w)) = db w
  \/ exists result_rows d,
       execute q (db w) = Some (result_rows, d)
       /\ db (snd (pool_query q w)) = d.
Proof.
  unfold pool_query. destruct (pool w); [|left; reflexivity].
  destruct (execute q (db w)) as [[rs d]|]; [|left; reflexivity].
  right. exists rs, d. split; reflexivity.
Qed.

Lemma execute_unreachable (q : statement) (d : database) :
  reachable d = false -> execute q d = None.
Proof. intros H. unfold execute. rewrite H. reflexivity. Qed.

Lemma execute_update_unmatched
  (t : resource) (values : list jsval) (id : string) (k : Z) (d : database) :
  id_in d id = Some k ->
  existsb (matches k) (rows (table_of t d)) = false ->
  forall result_rows d',
    execute (Update t values id) d = Some (result_rows, d') ->
    result_rows = [] /\ d' = d.
Proof.
  intros Hid Hno rs d'. unfold execute. rewrite Hid.
  destruct (reachable d); simpl; [|discriminate].
  destruct (admits d t values); [|discriminate].
  intros H. injection H as <- <-.
  rewrite filter_overwritten, filter_unmatched by assumption.
  rewrite map_unmatched by assumption.
  rewrite table_eta, set_table_same. split; reflexivity.
Qed.

(* ------------------------------------------------------------------ *)
(** ** Dispatch, method by method *)

Lemma dispatch_put (t : resource) (ev : event) (w : world) :
  httpMethod ev = "PUT" ->
  dispatch t ev w =
    try_catch
      match present (extract_id t (path ev)) with
      | None => ret (respond 400 (error_body "ID is required for update"))
      | Some id =>
          updateData <- JSON_parse (body ev) ;;
          params <- lift (update_params t updateData) ;;
          putResult <- pool_query (Update t params id) ;;
          if (List.length putResult =? 0)%nat then
            ret (respond 404 (error_body (not_found t)))
          else
            ret (respond 200 (JSON_stringify (first_row putResult)))
      end
      (respond 500 (error_body "Internal server error")) w.
Proof. intros H. unfold dispatch, try_scope. rewrite H. reflexivity. Qed.

Lemma dispatch_delete (t : resource) (ev : event) (w : world) :
  httpMethod ev = "DELETE" ->
  dispatch t ev w =
    try_catch
      match present (extract_id t (path ev)) with
      | None => ret (respond 400 (error_body "ID is required for delete"))
      | Some id =>
          deleteResult <- pool_query (Delete t id) ;;
          if (List.length deleteResult =? 0)%nat then
            ret (respond 404 (error_body (not_found t)))
          else
            ret (respond 200 (message_body (deleted t)))
      end
      (respond 500 (error_body "Internal server error")) w.
Proof. intros H. unfold dispatch, try_scope. rewrite H. reflexivity. Qed.

Lemma dispatch_post (t : resource) (ev : event) (w : world) :
  httpMethod ev = "POST" ->
  dispatch t ev w =
    try_catch
      (parsed <- JSON_parse (body ev) ;;
       params <- lift (insert_params t parsed) ;;
       postResult <- pool_query (Insert t params) ;;
       ret (respond 201 (JSON_stringify (first_row postResult))))
      (respond 500 (error_body "Internal server error")) w.
Proof. intros H. unfold dispatch, try_scope. rewrite H. reflexivity. Qed.

Lemma dispatch_get (t : resource) (ev : event) (w : world) :
  httpMethod ev = "GET" ->
  dispatch t ev w =
    try_catch
      (getResult <- pool_query (Select t) ;;
       ret (respond 200 (JSON_stringify (JArr getResult))))
      (respond 500 (error_body "Internal server error")) w.
Proof. intros H. unfold dispatch, try_scope. rewrite H. reflexivity. Qed.

(** A PUT whose id matches no row never changes the store. *)
Lemma put_unmatched_keeps_db
  (t : resource) (ev : event) (w : world) (id : string) (k : Z) :
  httpMethod ev = "PUT" ->
  present (extract_id t (path ev)) = Some id ->
  id_in (db w) id = Some k ->
  existsb (matches k) (rows (table_of t (db w))) = false ->
  db (snd (dispatch t ev w)) = db w.
Proof.
  intros Hm Hp Hid Hno. rewrite dispatch_put by exact Hm. rewrite Hp.
  unfold try_catch, bind, lift, ret.
  destruct (body ev) as [bad|v]; simpl; [reflexivity|].
  destruct (update_params t v) as [params|e]; simpl; [|reflexivity].
  destruct (db_pool_query (Update t params id) w) as [H|(rs & d & He & H)].
  - destruct (pool_query _ w) as [[rs|e] w']; simpl in *; [|exact H].
    destruct (List.length rs =? 0)%nat; exact H.
  - apply (execute_update_unmatched _ _ _ _ _ Hid Hno) in He as [_ ->].
    destruct (pool_query _ w) as [[rs'|e] w']; simpl in *; [|exact H].
    destruct (List.length rs' =? 0)%nat; exact H.
Qed.

(* ------------------------------------------------------------------ *)
(** ** Updating an id that matches no row *)

(** C1, as the code has it.  A PUT whose path carries a non-empty id that
    matches no stored row leaves the store unchanged, whatever else
    happens; and it is answered 404 with the resource's not-found message
    when the handler reaches the storage call and the call goes through:
    the pool is there, the body parses to a value whose properties can be
    read, and the store is reachable and accepts the values. *)
Theorem put_unknown_id
  (s : style) (t : resource) (ev : event) (w : world) (id : string) (k : Z) :
  httpMethod ev = "PUT" ->
  present (extract_id t (path ev)) = Some id ->
  id_in (db w) id = Some k ->
  existsb (matches k) (rows (table_of t (db w))) = false ->
  db (snd (handler s t ev w)) = db w
  /\ (forall v params,
        ready s w = true ->
        reachable (db w) = true ->
        body ev = Denotes v ->
        update_params t v = Ok params ->
        admits (db w) t params = true ->
        fst (handler s t ev w) = respond 404 (error_body (not_found t))).
Proof.
  intros Hm Hp Hid Hno. split.
  - destruct (handler_cases s t ev w) as [-> | [H _]]; [|exact H].
    rewrite <- (db_after_init s w) in Hid, Hno |- *.
    now apply put_unmatched_keeps_db with (id := id) (k := k).
  - intros v params Hready Hreach Hbody Hparams Hadm.
    rewrite handler_ready by exact Hready.
    destruct (pool_after_init s w Hready) as [p Hpool].
    rewrite dispatch_put by exact Hm. rewrite Hp, Hbody.
    cbv beta iota delta [try_catch bind lift ret JSON_parse].
    rewrite Hparams. rewrite (pool_query_run _ _ p Hpool), db_after_init.
    unfold execute. rewrite Hreach, Hid, Hadm. simpl.
    rewrite filter_overwritten, filter_unmatched by assumption.
    reflexivity.
Qed.

(** PUT /tasks/42 on a table whose ids are 1 and 2. *)
Lemma put_unknown_id_witness :
  let ev := mkEvent "PUT" "/.netlify/functions/tasks/42"
                    (Denotes (JObj [("description", JStr "Ship report");
                                    ("assigned_to", JStr "Alex");
                                    ("due_date", JStr "2025-03-01");
                                    ("status", JStr "SENT")])) in
  db (snd (tasks_handler ev loaded)) = db loaded
  /\ fst (tasks_handler ev loaded)
     = respond 404 (error_body "Task not found").
Proof.
  intros ev.
  destruct (put_unknown_id AtLoad Tasks ev loaded "42" 42) as [Hdb Hresp];
    try reflexivity.
  split; [exact Hdb|].
  eapply Hresp; reflexivity.
Defined.

(** The same request with a body that is not JSON: the id is non-empty and
    matches no row, and the answer is 500, not 404. *)
Lemma put_unknown_id_malformed_body :
  let ev := mkEvent "PUT" "/.netlify/functions/tasks/42" (Malformed "{") in
  httpMethod ev = "PUT"
  /\ present (extract_id Tasks (path ev)) = Some "42"
  /\ id_in (db loaded) "42" = Some 42
  /\ existsb (matches 42) (rows (table_of Tasks (db loaded))) = false
  /\ statusCode (fst (tasks_handler ev loaded)) = 500
  /\ statusCode (fst (tasks_handler ev loaded)) <> 404.
Proof. repeat split; try reflexivity. discriminate. Qed.

(* ------------------------------------------------------------------ *)
(** ** Path segments *)

Lemma split_nonempty (sep : ascii) (s : string) : split sep s <> [].
Proof.
  destruct s as [|c s]; simpl; [discriminate|].
  destruct (Ascii.eqb c sep); [discriminate|].
  destruct (split sep s); discriminate.
Qed.

Lemma split_trailing (sep : ascii) (s : string) :
  split sep (s ++ String sep "")%string = split sep s ++ [""].
Proof.
  induction s as [|c s IH]; simpl.
  - rewrite Ascii.eqb_refl. reflexivity.
  - rewrite IH. destruct (Ascii.eqb c sep); [reflexivity|].
    pose proof (split_nonempty sep s) as Hne.
    destruct (split sep s); [contradiction | reflexivity].
Qed.

Lemma name_nonempty (t : resource) : ("" =? name t)%string = false.
Proof. destruct t; reflexivity. Qed.

(** A path that ends in a slash carries the empty id, which [!id] takes
    for a missing one. *)
Lemma extract_id_trailing (t : resource) (p : string) :
  extract_id t (p ++ "/")%string = Some ""
  /\ present (extract_id t (p ++ "/")%string) = None.
Proof.
  unfold extract_id. rewrite split_trailing, last_last, name_nonempty.
  split; reflexivity.
Qed.

(* ------------------------------------------------------------------ *)
(** ** A trailing slash *)

(** C10.  A PUT or DELETE whose path ends in a slash has the empty string
    as its extracted id; once the pool is there, the handler answers 400
    with the "ID is required" message of the method, issues no statement
    and leaves the store as it was. *)
Theorem trailing_slash_is_missing_id
  (s : style) (t : resource) (ev : event) (w : world) (p : string) :
  path ev = (p ++ "/")%string ->
  ready s w = true ->
  extract_id t (path ev) = Some ""
  /\ (httpMethod ev = "PUT" ->
      handler s t ev w
      = (respond 400 (error_body "ID is required for update"), after_init s w))
  /\ (httpMethod ev = "DELETE" ->
      handler s t ev w
      = (respond 400 (error_body "ID is required for delete"), after_init s w))
  /\ db (after_init s w) = db w
  /\ queries (trace (after_init s w)) = queries (trace w).
Proof.
  intros Hpath Hready.
  destruct (extract_id_trailing t p) as [Hid Hnone].
  rewrite <- Hpath in Hid, Hnone.
  repeat split.
  - exact Hid.
  - intros Hm. rewrite handler_ready, dispatch_put by assumption.
    rewrite Hnone. reflexivity.
  - intros Hm. rewrite handler_ready, dispatch_delete by assumption.
    rewrite Hnone. reflexivity.
  - apply db_after_init.
  - apply queries_after_init.
Qed.

(** DELETE /tenders/ on the handler that builds its pool on demand. *)
Lemma trailing_slash_is_missing_id_witness :
  let ev := mkEvent "DELETE" "/.netlify/functions/tenders/" (Denotes JNull) in
  fst (tenders_handler ev fresh)
  = respond 400 (error_body "ID is required for delete")
  /\ db (snd (tenders_handler ev fresh)) = db fresh
  /\ queries (trace (snd (tenders_handler ev fresh))) = [].
Proof.
  intros ev.
  destruct (trailing_slash_is_missing_id OnDemand Tenders ev fresh
              "/.netlify/functions/tenders" eq_refl eq_refl)
    as (_ & _ & Hdel & Hdb & Hq).
  unfold tenders_handler. rewrite (Hdel eq_refl). simpl fst. simpl snd.
  repeat split; assumption.
Defined.

(* ------------------------------------------------------------------ *)
(** ** Deleting by id *)

Lemma dispatch_delete_run
  (t : resource) (ev : event) (w : world) (p : Pool) (id : string) (k : Z) :
  httpMethod ev = "DELETE" ->
  present (extract_id t (path ev)) = Some id ->
  pool w = Some p ->
  reachable (db w) = true ->
  id_in (db w) id = Some k ->
  dispatch t ev w =
    (if existsb (matches k) (rows (table_of t (db w)))
     then respond 200 (message_body (deleted t))
     else respond 404 (error_body (not_found t)),
     set_db (set_table t (without k (table_of t (db w))) (db w))
            (record (Query (Delete t id)) w)).
Proof.
  intros Hm Hp Hpool Hreach Hid.
  rewrite dispatch_delete by exact Hm. rewrite Hp.
  cbv beta iota delta [try_catch bind ret].
  rewrite (pool_query_run _ _ p Hpool).
  unfold execute. rewrite Hreach, Hid. simpl negb. cbv iota.
  rewrite length_map. fold (without k (table_of t (db w))).
  destruct (existsb (matches k) (rows (table_of t (db w)))) eqn:E.
  - apply filter_matched in E.
    destruct (filter (matches k) (rows (table_of t (db w))));
      [contradiction | reflexivity].
  - rewrite (filter_unmatched _ _ E). reflexivity.
Qed.

Lemma ready_of_pool (s : style) (w : world) (p : Pool) :
  pool w = Some p -> ready s w = true /\ after_init s w = w.
Proof.
  intros H. destruct s; simpl; unfold init_pool; rewrite H; split; reflexivity.
Qed.

(** C6, as the code has it.  A DELETE with a non-empty id, on a store that
    can be reached: when a row matches, the handler removes it and answers
    200 with the resource's fixed confirmation message, and the same
    request repeated is answered 404; when no row matches it answers 404
    and the store is unchanged.  (The confirmation does not say which row
    went.) *)
Theorem delete_by_id
  (s : style) (t : resource) (ev : event) (w : world) (id : string) (k : Z) :
  httpMethod ev = "DELETE" ->
  present (extract_id t (path ev)) = Some id ->
  ready s w = true ->
  reachable (db w) = true ->
  id_in (db w) id = Some k ->
  (existsb (matches k) (rows (table_of t (db w))) = true ->
   let w' := snd (handler s t ev w) in
   fst (handler s t ev w) = respond 200 (message_body (deleted t))
   /\ db w' = set_table t (without k (table_of t (db w))) (db w)
   /\ fst (handler s t ev w') = respond 404 (error_body (not_found t)))
  /\ (existsb (matches k) (rows (table_of t (db w))) = false ->
      fst (handler s t ev w) = respond 404 (error_body (not_found t))
      /\ db (snd (handler s t ev w)) = db w).
Proof.
  intros Hm Hp Hready Hreach Hid.
  destruct (pool_after_init s w Hready) as [p Hpool].
  pose proof (db_after_init s w) as Hdb.
  assert (Hrun := dispatch_delete_run t ev (after_init s w) p id k Hm Hp Hpool).
  rewrite Hdb in Hrun. specialize (Hrun Hreach Hid).
  rewrite handler_ready by exact Hready. rewrite Hrun. split.
  - intros Hyes. rewrite Hyes. cbn zeta. simpl fst. simpl snd.
    repeat split.
    set (w' := set_db _ _).
    assert (Hpool' : pool w' = Some p) by exact Hpool.
    destruct (ready_of_pool s w' p Hpool') as [Hready' Hafter].
    rewrite handler_ready, Hafter by exact Hready'.
    rewrite (dispatch_delete_run t ev w' p id k Hm Hp Hpool').
    + subst w'. simpl db. rewrite table_of_set_table.
      unfold without at 1. simpl rows. rewrite gone_after_delete. reflexivity.
    + subst w'. destruct t; exact Hreach.
    + subst w'. destruct t; exact Hid.
  - intros Hno. rewrite Hno. simpl fst. simpl snd. split; [reflexivity|].
    simpl db. unfold without. rewrite filter_others by exact Hno.
    rewrite table_eta. apply set_table_same.
Qed.

(** DELETE /tasks/1, twice. *)
Lemma delete_by_id_witness :
  let ev := mkEvent "DELETE" "/.netlify/functions/tasks/1" (Denotes JNull) in
  let w' := snd (tasks_handler ev loaded) in
  fst (tasks_handler ev loaded)
  = respond 200 (message_body "Task deleted successfully")
  /\ rows (tasks (db w')) = [call_supplier]
  /\ fst (tasks_handler ev w') = respond 404 (error_body "Task not found").
Proof.
  intros ev w'.
  destruct (delete_by_id AtLoad Tasks ev loaded "1" 1
              eq_refl eq_refl eq_refl eq_refl eq_refl) as [Hyes _].
  destruct (Hyes eq_refl) as (H200 & Hdb & H404).
  split; [exact H200 | split; [| exact H404]].
  subst w'. unfold tasks_handler. rewrite Hdb. reflexivity.
Defined.

(** The answer to a successful DELETE is the same whichever row went, and
    it holds no id: deleting task 1 and deleting task 2 are both answered
    200 with the one confirmation message. *)
Lemma delete_answer_names_no_row :
  let first := mkEvent "DELETE" "/.netlify/functions/tasks/1" (Denotes JNull) in
  let second := mkEvent "DELETE" "/.netlify/functions/tasks/2" (Denotes JNull) in
  existsb (matches 1) (rows (tasks (db loaded))) = true
  /\ statusCode (fst (tasks_handler first loaded)) = 200
  /\ rows (tasks (db (snd (tasks_handler first loaded)))) = [call_supplier]
  /\ rows (tasks (db (snd (tasks_handler second loaded)))) = [ship_report]
  /\ fst (tasks_handler first loaded) = fst (tasks_handler second loaded)
  /\ ~ identifies (responseBody (fst (tasks_handler first loaded))) ship_report.
Proof.
  repeat split; try reflexivity.
  intros (v & Hv & Hget). vm_compute in Hv. injection Hv as <-.
  discriminate.
Qed.

(* ------------------------------------------------------------------ *)
(** ** Listing *)

Lemma insert_desc_perm (r : row) (l : list row) :
  Permutation (insert_desc r l) (r :: l).
Proof.
  induction l as [|r' l IH]; simpl; [reflexivity|].
  destruct (created_at r' <=? created_at r); [reflexivity|].
  rewrite IH. apply perm_swap.
Qed.

Lemma newest_first_perm (rs : list row) : Permutation (newest_first rs) rs.
Proof.
  induction rs as [|r rs IH]; simpl; [reflexivity|].
  rewrite insert_desc_perm. now constructor.
Qed.

Lemma insert_desc_sorted (r : row) (l : list row) :
  StronglySorted newer l -> StronglySorted newer (insert_desc r l).
Proof.
  induction 1 as [|r' l Hl IH Hall]; simpl.
  - repeat constructor.
  - destruct (created_at r' <=? created_at r) eqn:E.
    + apply Z.leb_le in E. constructor; [now constructor|].
      constructor; [exact E|].
      eapply Forall_impl; [|exact Hall]. unfold newer. intros x Hx. lia.
    + apply Z.leb_gt in E. constructor; [exact IH|].
      apply (Permutation_Forall (Permutation_sym (insert_desc_perm r l))).
      constructor; [unfold newer; lia | exact Hall].
Qed.

Lemma newest_first_sorted (rs : list row) :
  StronglySorted newer (newest_first rs).
Proof.
  induction rs as [|r rs IH]; simpl; [constructor|].
  now apply insert_desc_sorted.
Qed.

(** C7.  On a store that can be reached, a GET (whatever its path, so in
    particular one without an id) is answered 200 with the JSON array of
    the rows of the resource's table: every row once and no other, ordered
    by [created_at] descending.  The store is not changed. *)
Theorem get_lists_every_record
  (s : style) (t : resource) (ev : event) (w : world) :
  httpMethod ev = "GET" ->
  ready s w = true ->
  reachable (db w) = true ->
  exists listed,
    fst (handler s t ev w)
    = respond 200 (JSON_stringify (JArr (map (row_json t) listed)))
    /\ Permutation listed (rows (table_of t (db w)))
    /\ StronglySorted newer listed
    /\ db (snd (handler s t ev w)) = db w.
Proof.
  intros Hm Hready Hreach.
  destruct (pool_after_init s w Hready) as [p Hpool].
  exists (newest_first (rows (table_of t (db w)))).
  rewrite handler_ready, dispatch_get by assumption.
  cbv beta iota delta [try_catch bind ret].
  rewrite (pool_query_run _ _ p Hpool), db_after_init.
  unfold execute. rewrite Hreach. simpl.
  split; [reflexivity|].
  split; [apply newest_first_perm|].
  split; [apply newest_first_sorted | reflexivity].
Qed.

(** GET /tasks on the two sample tasks. *)
Lemma get_lists_every_record_witness :
  let ev := mkEvent "GET" "/.netlify/functions/tasks" (Denotes JNull) in
  exists listed,
    fst (tasks_handler ev loaded)
    = respond 200 (JSON_stringify (JArr (map (row_json Tasks) listed)))
    /\ Permutation listed [ship_report; call_supplier]
    /\ StronglySorted newer listed
    /\ db (snd (tasks_handler ev loaded)) = db loaded.
Proof.
  intros ev.
  exact (get_lists_every_record AtLoad Tasks ev loaded
           eq_refl eq_refl eq_refl).
Defined.

(** The task created at 300 is listed before the one created at 100. *)
Example get_tasks_newest_first :
  responseBody
    (fst (tasks_handler
            (mkEvent "GET" "/.netlify/functions/tasks" (Denotes JNull)) loaded))
  = JSON_stringify (JArr [row_json Tasks call_supplier;
                          row_json Tasks ship_report]).
Proof. reflexivity. Qed.

(* ------------------------------------------------------------------ *)
(** ** Creating and updating tasks: the status default *)

Lemma insert_params_task (v st : jsval) :
  get v "status" = Ok st ->
  insert_params Tasks v
  = Ok [prop v "description"; prop v "assigned_to"; prop v "due_date";
        js_or st (JStr "PENDING")].
Proof.
  destruct v; simpl; try discriminate; intros H; injection H as <-;
    reflexivity.
Qed.

Lemma update_params_task (v st : jsval) :
  get v "status" = Ok st ->
  update_params Tasks v
  = Ok [prop v "description"; prop v "assigned_to"; prop v "due_date"; st].
Proof.
  destruct v; simpl; try discriminate; intros H; injection H as <-;
    reflexivity.
Qed.

Lemma post_task_run
  (s : style) (ev : event) (w : world) (v st : jsval) :
  httpMethod ev = "POST" ->
  body ev = Denotes v ->
  get v "status" = Ok st ->
  ready s w = true ->
  reachable (db w) = true ->
  admits (db w) Tasks
         [prop v "description"; prop v "assigned_to"; prop v "due_date";
          js_or st (JStr "PENDING")] = true ->
  let r := created_task v (js_or st (JStr "PENDING")) (db w) in
  fst (handler s Tasks ev w) = respond 201 (JSON_stringify (row_json Tasks r))
  /\ tasks (db (snd (handler s Tasks ev w)))
     = mkTable (rows (tasks (db w)) ++ [r]) (next_id (tasks (db w)) + 1)
  /\ tenders (db (snd (handler s Tasks ev w))) = tenders (db w).
Proof.
  intros Hm Hbody Hst Hready Hreach Hadm r.
  destruct (pool_after_init s w Hready) as [p Hpool].
  rewrite handler_ready, dispatch_post by assumption. rewrite Hbody.
  cbv beta iota delta [try_catch bind lift ret JSON_parse].
  rewrite (insert_params_task v st Hst).
  rewrite (pool_query_run _ _ p Hpool), db_after_init.
  unfold execute. rewrite Hreach, Hadm. simpl.
  repeat split.
Qed.

Lemma dispatch_put_run
  (t : resource) (ev : event) (w : world) (p : Pool)
  (id : string) (k : Z) (v : jsval) (params : list jsval) :
  httpMethod ev = "PUT" ->
  present (extract_id t (path ev)) = Some id ->
  body ev = Denotes v ->
  update_params t v = Ok params ->
  pool w = Some p ->
  reachable (db w) = true ->
  id_in (db w) id = Some k ->
  admits (db w) t params = true ->
  let tb := table_of t (db w) in
  dispatch t ev w =
    (match filter (matches k) (rows tb) with
     | [] => respond 404 (error_body (not_found t))
     | r :: _ =>
         respond 200 (JSON_stringify
                        (row_json t (overwrite params (now (db w)) r)))
     end,
     set_db (set_table t (mkTable (updated k params (now (db w)) (rows tb))
                                  (next_id tb)) (db w))
            (record (Query (Update t params id)) w)).
Proof.
  intros Hm Hp Hbody Hparams Hpool Hreach Hid Hadm tb.
  rewrite dispatch_put by exact Hm. rewrite Hp, Hbody.
  cbv beta iota delta [try_catch bind lift ret JSON_parse].
  rewrite Hparams, (pool_query_run _ _ p Hpool).
  unfold execute. rewrite Hreach, Hid, Hadm. simpl negb. cbv iota zeta.
  rewrite filter_overwritten. fold tb. unfold updated.
  destruct (filter (matches k) (rows tb)); reflexivity.
Qed.

Lemma falsy_is_not_pending (st : jsval) :
  truthy st = false -> prepareValue st <> JStr "PENDING".
Proof.
  destruct st; simpl; intros H E; try discriminate.
  injection E as ->. discriminate.
Qed.

(** C5.  A POST to the tasks handler whose body parses to a value without
    a [status], on a store that can be reached and accepts the values, is
    answered 201 with the created row, and that row is appended to the
    table.  The row has the body's description, assigned_to and due_date
    (an absent one stored as NULL), status "PENDING", the next id of the
    sequence, and [created_at] and [updated_at] both at the server's
    current time. *)
Theorem post_task_without_status
  (s : style) (ev : event) (w : world) (v : jsval) :
  httpMethod ev = "POST" ->
  body ev = Denotes v ->
  get v "status" = Ok JUndefined ->
  ready s w = true ->
  reachable (db w) = true ->
  admits (db w) Tasks
         [prop v "description"; prop v "assigned_to"; prop v "due_date";
          JStr "PENDING"] = true ->
  let r := created_task v (JStr "PENDING") (db w) in
  let returned := row_json Tasks r in
  fst (handler s Tasks ev w) = respond 201 (JSON_stringify returned)
  /\ tasks (db (snd (handler s Tasks ev w)))
     = mkTable (rows (tasks (db w)) ++ [r]) (next_id (tasks (db w)) + 1)
  /\ get returned "status" = Ok (JStr "PENDING")
  /\ (forall c, In c ["description"; "assigned_to"; "due_date"] ->
                get returned c = Ok (prepareValue (prop v c)))
  /\ get returned "id" = Ok (JNum (next_id (tasks (db w))))
  /\ get returned "created_at" = Ok (JDate (now (db w)))
  /\ get returned "updated_at" = get returned "created_at".
Proof.
  intros Hm Hbody Hst Hready Hreach Hadm r returned.
  destruct (post_task_run s ev w v JUndefined Hm Hbody Hst Hready Hreach Hadm)
    as (Hresp & Htasks & _).
  split; [exact Hresp|]. split; [exact Htasks|].
  split; [reflexivity|]. split.
  - intros c [<-|[<-|[<-|[]]]]; reflexivity.
  - repeat split.
Qed.

(** The scenario of the spec: POST /tasks without a status. *)
Lemma post_task_without_status_witness :
  let ev := mkEvent "POST" "/.netlify/functions/tasks"
                    (Denotes (JObj [("description", JStr "Ship report");
                                    ("assigned_to", JStr "Alex");
                                    ("due_date", JStr "2025-03-01")])) in
  fst (tasks_handler ev loaded)
  = respond 201
      (JSON_stringify
         (JObj [("id", JNum 3);
                ("description", JStr "Ship report");
                ("assigned_to", JStr "Alex");
                ("due_date", JStr "2025-03-01");
                ("status", JStr "PENDING");
                ("created_at", JDate 1000);
                ("updated_at", JDate 1000)])).
Proof.
  intros ev.
  exact (proj1 (post_task_without_status AtLoad ev loaded _
                  eq_refl eq_refl eq_refl eq_refl eq_refl eq_refl)).
Defined.

(** C9.  The default of a task's status is a falsy coercion.  When the
    parsed body's [status] is falsy (absent, null, false, 0 or the empty
    string), a POST to the tasks handler inserts and returns the row with
    status "PENDING".  A PUT defaults nothing: every matching row gets the
    body's status as the driver sends it (an absent one as NULL), the
    answer shows that status, and for a falsy status that is never
    "PENDING". *)
Theorem task_status_defaults_on_post_only
  (s : style) (ev : event) (w : world) (v st : jsval) :
  body ev = Denotes v ->
  get v "status" = Ok st ->
  truthy st = false ->
  ready s w = true ->
  reachable (db w) = true ->
  (httpMethod ev = "POST" ->
   admits (db w) Tasks
          [prop v "description"; prop v "assigned_to"; prop v "due_date";
           JStr "PENDING"] = true ->
   let r := created_task v (JStr "PENDING") (db w) in
   fst (handler s Tasks ev w) = respond 201 (JSON_stringify (row_json Tasks r))
   /\ rows (tasks (db (snd (handler s Tasks ev w))))
      = rows (tasks (db w)) ++ [r]
   /\ get (row_json Tasks r) "status" = Ok (JStr "PENDING"))
  /\ (httpMethod ev = "PUT" ->
      forall id k,
        present (extract_id Tasks (path ev)) = Some id ->
        id_in (db w) id = Some k ->
        let values := [prop v "description"; prop v "assigned_to";
                       prop v "due_date"; st] in
        admits (db w) Tasks values = true ->
        rows (tasks (db (snd (handler s Tasks ev w))))
        = updated k values (now (db w)) (rows (tasks (db w)))
        /\ (forall r rest,
              filter (matches k) (rows (tasks (db w))) = r :: rest ->
              let r' := overwrite values (now (db w)) r in
              fst (handler s Tasks ev w)
              = respond 200 (JSON_stringify (row_json Tasks r'))
              /\ get (row_json Tasks r') "status" = Ok (prepareValue st))
        /\ prepareValue st <> JStr "PENDING").
Proof.
  intros Hbody Hst Hfalsy Hready Hreach. split.
  - intros Hm Hadm r.
    assert (Hor : js_or st (JStr "PENDING") = JStr "PENDING")
      by (unfold js_or; rewrite Hfalsy; reflexivity).
    pose proof (post_task_run s ev w v st Hm Hbody Hst Hready Hreach) as H.
    rewrite Hor in H. destruct (H Hadm) as (Hresp & Htasks & _).
    split; [exact Hresp|]. split; [|reflexivity].
    rewrite Htasks. reflexivity.
  - intros Hm id k Hp Hid values Hadm.
    destruct (pool_after_init s w Hready) as [p Hpool].
    pose proof (dispatch_put_run Tasks ev (after_init s w) p id k v values
                  Hm Hp Hbody (update_params_task v st Hst) Hpool) as Hrun.
    rewrite db_after_init in Hrun. specialize (Hrun Hreach Hid Hadm).
    cbv zeta in Hrun. rewrite handler_ready by exact Hready. rewrite Hrun.
    split; [reflexivity|]. split; [|now apply falsy_is_not_pending].
    intros r rest Hfilter r'. simpl table_of. rewrite Hfilter.
    split; reflexivity.
Qed.

(** POST /tasks and PUT /tasks/1 with the empty string as status. *)
Lemma task_status_defaults_on_post_only_witness :
  let blank := Denotes (JObj [("description", JStr "Ship report");
                              ("assigned_to", JStr "Alex");
                              ("due_date", JStr "2025-03-01");
                              ("status", JStr "")]) in
  let post := mkEvent "POST" "/.netlify/functions/tasks" blank in
  let put := mkEvent "PUT" "/.netlify/functions/tasks/1" blank in
  fst (tasks_handler post loaded)
  = respond 201
      (JSON_stringify
         (JObj [("id", JNum 3);
                ("description", JStr "Ship report");
                ("assigned_to", JStr "Alex");
                ("due_date", JStr "2025-03-01");
                ("status", JStr "PENDING");
                ("created_at", JDate 1000);
                ("updated_at", JDate 1000)]))
  /\ rows (tasks (db (snd (tasks_handler put loaded))))
     = [mkRow 1 [JStr "Ship report"; JStr "Alex"; JStr "2025-03-01"; JStr ""]
              100 1000;
        call_supplier].
Proof.
  intros blank post put.
  destruct (task_status_defaults_on_post_only AtLoad post loaded _ (JStr "")
              eq_refl eq_refl eq_refl eq_refl eq_refl) as [Hpost _].
  destruct (task_status_defaults_on_post_only AtLoad put loaded _ (JStr "")
              eq_refl eq_refl eq_refl eq_refl eq_refl) as [_ Hput].
  split.
  - exact (proj1 (Hpost eq_refl eq_refl)).
  - exact (proj1 (Hput eq_refl "1"%string 1 eq_refl eq_refl eq_refl)).
Defined.

(* ------------------------------------------------------------------ *)
(** ** Faults inside the try scope *)

Lemma dispatch_caught (t : resource) (ev : event) (w w' : world) (e : exn) :
  (httpMethod ev =? "OPTIONS")%string = false ->
  try_scope t ev w = (Throw e, w') ->
  dispatch t ev w = (internal_error, w').
Proof.
  intros Hm H. unfold dispatch, try_catch. rewrite Hm, H. reflexivity.
Qed.

Lemma pool_query_failed (q : statement) (w : world) (p : Pool) :
  pool w = Some p ->
  execute q (db w) = None ->
  pool_query q w = (Throw DatabaseError, record (Query q) w).
Proof.
  intros Hpool He. rewrite (pool_query_run _ _ p Hpool), He. reflexivity.
Qed.

Lemma execute_unconvertible
  (t : resource) (values : list jsval) (id : string) (d : database) :
  id_in d id = None ->
  execute (Update t values id) d = None /\ execute (Delete t id) d = None.
Proof.
  intros H. unfold execute. rewrite H.
  destruct (reachable d); split; reflexivity.
Qed.

(** A request body that is not JSON. *)
Lemma malformed_caught
  (t : resource) (ev : event) (w : world) (bad : string) :
  parses_body t ev ->
  body ev = Malformed bad ->
  dispatch t ev w = (internal_error, w).
Proof.
  intros [Hm | [Hm Hp]] Hbody.
  - rewrite dispatch_post by exact Hm. rewrite Hbody. reflexivity.
  - rewrite dispatch_put by exact Hm.
    destruct (present (extract_id t (path ev))); [|contradiction].
    rewrite Hbody. reflexivity.
Qed.

(** A body that parses to [null]: reading its properties throws. *)
Lemma null_caught (t : resource) (ev : event) (w : world) :
  parses_body t ev ->
  body ev = Denotes JNull ->
  dispatch t ev w = (internal_error, w).
Proof.
  intros [Hm | [Hm Hp]] Hbody.
  - rewrite dispatch_post by exact Hm. rewrite Hbody. destruct t; reflexivity.
  - rewrite dispatch_put by exact Hm.
    destruct (present (extract_id t (path ev))); [|contradiction].
    rewrite Hbody. destruct t; reflexivity.
Qed.

(** A store on which every statement of the request fails. *)
Lemma storage_fault_caught
  (t : resource) (ev : event) (w : world) (p : Pool) :
  touches_storage t ev ->
  pool w = Some p ->
  (forall q, execute q (db w) = None) ->
  fst (dispatch t ev w) = internal_error
  /\ db (snd (dispatch t ev w)) = db w.
Proof.
  intros Hev Hpool Hfail.
  assert (Hq : forall q,
             pool_query q w = (Throw DatabaseError, record (Query q) w))
    by (intros q; apply (pool_query_failed q w p Hpool), Hfail).
  destruct Hev as [Hm | [Hm | [[Hm Hp] | [Hm Hp]]]].
  - rewrite dispatch_get by exact Hm.
    cbv beta iota delta [try_catch bind]. rewrite Hq. split; reflexivity.
  - rewrite dispatch_post by exact Hm.
    destruct (body ev) as [bad|v]; [split; reflexivity|].
    cbv beta iota delta [try_catch bind lift ret JSON_parse].
    destruct (insert_params t v); [|split; reflexivity].
    rewrite Hq. split; reflexivity.
  - rewrite dispatch_put by exact Hm.
    destruct (present (extract_id t (path ev))) as [id|]; [|contradiction].
    destruct (body ev) as [bad|v]; [split; reflexivity|].
    cbv beta iota delta [try_catch bind lift ret JSON_parse].
    destruct (update_params t v); [|split; reflexivity].
    rewrite Hq. split; reflexivity.
  - rewrite dispatch_delete by exact Hm.
    destruct (present (extract_id t (path ev))) as [id|]; [|contradiction].
    cbv beta iota delta [try_catch bind]. rewrite Hq. split; reflexivity.
Qed.

(** An id that the id column cannot read. *)
Lemma unconvertible_id_caught
  (t : resource) (ev : event) (w : world) (p : Pool) (id : string) :
  httpMethod ev = "PUT" \/ httpMethod ev = "DELETE" ->
  present (extract_id t (path ev)) = Some id ->
  pool w = Some p ->
  id_in (db w) id = None ->
  fst (dispatch t ev w) = internal_error
  /\ db (snd (dispatch t ev w)) = db w.
Proof.
  intros Hm Hp Hpool Hid.
  destruct Hm as [Hm | Hm].
  - rewrite dispatch_put by exact Hm. rewrite Hp.
    destruct (body ev) as [bad|v]; [split; reflexivity|].
    cbv beta iota delta [try_catch bind lift ret JSON_parse].
    destruct (update_params t v) as [params|]; [|split; reflexivity].
    rewrite (pool_query_failed _ w p Hpool);
      [split; reflexivity | now apply execute_unconvertible].
  - rewrite dispatch_delete by exact Hm. rewrite Hp.
    cbv beta iota delta [try_catch bind].
    rewrite (pool_query_failed _ w p Hpool);
      [split; reflexivity | now apply (execute_unconvertible t [])].
Qed.

(** C8.  Once the try scope is entered, every fault ends in the one
    generic answer, 500 with [{ "error": "Internal server error" }]:
    whatever the scope throws is caught; a body that is not JSON, or that
    parses to [null], on a request that parses its body; a store that
    cannot be reached, or an id the id column cannot read, on a request
    that gets to its storage call.  A failed storage call writes nothing.
    The handler is a function to responses: nothing is thrown past it. *)
Theorem faults_answered_500
  (s : style) (t : resource) (ev : event) (w : world) :
  ready s w = true ->
  (forall e w',
      (httpMethod ev =? "OPTIONS")%string = false ->
      try_scope t ev (after_init s w) = (Throw e, w') ->
      handler s t ev w = (internal_error, w'))
  /\ (forall bad,
        parses_body t ev ->
        body ev = Malformed bad ->
        handler s t ev w = (internal_error, after_init s w))
  /\ (parses_body t ev ->
      body ev = Denotes JNull ->
      handler s t ev w = (internal_error, after_init s w))
  /\ (touches_storage t ev ->
      reachable (db w) = false ->
      fst (handler s t ev w) = internal_error
      /\ db (snd (handler s t ev w)) = db w)
  /\ (forall id,
        httpMethod ev = "PUT" \/ httpMethod ev = "DELETE" ->
        present (extract_id t (path ev)) = Some id ->
        id_in (db w) id = None ->
        fst (handler s t ev w) = internal_error
        /\ db (snd (handler s t ev w)) = db w).
Proof.
  intros Hready. rewrite (handler_ready s t ev w Hready).
  destruct (pool_after_init s w Hready) as [p Hpool].
  pose proof (db_after_init s w) as Hdb.
  split; [|split; [|split; [|split]]].
  - intros e w' Hm H. now apply dispatch_caught with (e := e).
  - intros bad Hev Hbody. now apply malformed_caught with (bad := bad).
  - intros Hev Hbody. now apply null_caught.
  - intros Hev Hreach. rewrite <- Hdb.
    apply (storage_fault_caught t ev _ p Hev Hpool).
    intros q. apply execute_unreachable. now rewrite Hdb.
  - intros id Hm Hp Hid. rewrite <- Hdb.
    apply (unconvertible_id_caught t ev _ p id Hm Hp Hpool).
    now rewrite Hdb.
Qed.

(** POST /tasks with a body that is not JSON; GET /tenders while the store
    is down. *)
Lemma faults_answered_500_witness :
  let post := mkEvent "POST" "/.netlify/functions/tasks" (Malformed "{") in
  let list := mkEvent "GET" "/.netlify/functions/tenders" (Denotes JNull) in
  let down :=
    set_db (mkDatabase serial_in (fun _ _ => true) false 1000
                       (tenders store) (tasks store)) fresh in
  tasks_handler post loaded = (internal_error, loaded)
  /\ fst (tenders_handler list down) = internal_error.
Proof.
  intros post list down. split.
  - destruct (faults_answered_500 AtLoad Tasks post loaded eq_refl)
      as (_ & Hbad & _).
    apply (Hbad "{"%string); [left|]; reflexivity.
  - destruct (faults_answered_500 OnDemand Tenders list down eq_refl)
      as (_ & _ & _ & Hdown & _).
    apply Hdown; [left|]; reflexivity.
Defined.

(* ------------------------------------------------------------------ *)
(** ** The connection string and the preflight *)

(** Without a pool and without a connection string, the [OnDemand]
    handler answers every request, OPTIONS included, with the
    configuration error, and does nothing else. *)
Lemma on_demand_checks_url (t : resource) (ev : event) (w : world) :
  pool w = None ->
  no_url (DATABASE_URL w) = true ->
  handler OnDemand t ev w
  = (mkResponse 500 config_headers (error_body "Database configuration error"),
     w).
Proof.
  intros Hpool Hurl. simpl. unfold init_pool. rewrite Hpool, Hurl. reflexivity.
Qed.

(** The [AtLoad] handler never looks at the connection string: a GET runs
    its statement on the pool built at load time, and is never answered
    with the configuration error. *)
Lemma at_load_never_checks_url
  (t : resource) (ev : event) (w : world) (p : Pool) :
  pool w = Some p ->
  httpMethod ev = "GET" ->
  queries (trace (snd (handler AtLoad t ev w))) = Select t :: queries (trace w)
  /\ responseBody (fst (handler AtLoad t ev w))
     <> error_body "Database configuration error".
Proof.
  intros Hpool Hm. simpl. rewrite dispatch_get by exact Hm.
  cbv beta iota delta [try_catch bind ret].
  rewrite (pool_query_run _ _ p Hpool).
  destruct (execute (Select t) (db w)) as [[rs d]|]; simpl;
    split; try reflexivity; discriminate.
Qed.

(** The [AtLoad] handler answers the preflight first. *)
Lemma at_load_preflight (t : resource) (ev : event) (w : world) :
  httpMethod ev = "OPTIONS" ->
  handler AtLoad t ev w = (respond 200 (Literal ""), w).
Proof. intros Hm. simpl. unfold dispatch. rewrite Hm. reflexivity. Qed.

(** No handler runs a statement for the preflight. *)
Lemma preflight_runs_no_statement
  (s : style) (t : resource) (ev : event) (w : world) :
  httpMethod ev = "OPTIONS" ->
  db (snd (handler s t ev w)) = db w
  /\ queries (trace (snd (handler s t ev w))) = queries (trace w).
Proof.
  intros Hm.
  destruct (handler_cases s t ev w) as [-> | (Hdb & Hq & _)]; [|now split].
  unfold dispatch. rewrite Hm. simpl.
  split; [apply db_after_init | apply queries_after_init].
Qed.

(** C3 at GET /tasks on [netlify/functions/tasks.js] with DATABASE_URL
    unset: the module has built a pool without a connection string at load
    time, and the request runs its SELECT on it and is answered 200 with
    the rows (or, with the store out of reach, the generic 500): there is
    no configuration error and a connection is used. *)
Theorem tasks_handler_without_url :
  let ev := mkEvent "GET" "/.netlify/functions/tasks" (Denotes JNull) in
  let down := set_db (mkDatabase serial_in (fun _ _ => true) false 1000
                                 (tenders store) (tasks store)) loaded_unset in
  DATABASE_URL loaded_unset = None
  /\ trace loaded_unset = [NewPool (mkPool None None)]
  /\ fst (tasks_handler ev loaded_unset)
     = respond 200 (JSON_stringify (JArr [row_json Tasks call_supplier;
                                          row_json Tasks ship_report]))
  /\ queries (trace (snd (tasks_handler ev loaded_unset))) = [Select Tasks]
  /\ fst (tasks_handler ev down) = internal_error
  /\ queries (trace (snd (tasks_handler ev down))) = [Select Tasks].
Proof. repeat split. Qed.

(** C4 at OPTIONS /tenders on [netlify/functions/tenders.js]: the pool
    initialisation runs before the preflight test.  With DATABASE_URL
    unset the preflight is answered 500 with the configuration error; with
    it set, the pool is built before the 200 is sent. *)
Theorem tenders_handler_preflight :
  let ev := mkEvent "OPTIONS" "/.netlify/functions/tenders" (Denotes JNull) in
  tenders_handler ev fresh_unset
  = (mkResponse 500 config_headers (error_body "Database configuration error"),
     fresh_unset)
  /\ fst (tenders_handler ev fresh) = respond 200 (Literal "")
  /\ trace (snd (tenders_handler ev fresh))
     = [NewPool (mkPool (Some "postgres://db") (Some false))].
Proof. repeat split. Qed.

(* ------------------------------------------------------------------ *)
(** ** The record transformer *)

(** C2, as the code has it.  For every record (an object) of either
    resource: the transformer and the request-body builder both succeed;
    transforming a stored record and building the request body from the
    result gives back the stored value of every client-writable column,
    so that an UPDATE built from it writes those values; building a
    request body from a presentation record and transforming it gives back
    every form field; and the transformer carries the id, every
    client-writable column and created_at.  (It does not carry
    updated_at.) *)
Theorem record_round_trip (t : resource) (props : list (string * jsval)) :
  (exists shown sent,
      transform t (JObj props) = Ok shown
      /\ request_body t shown = Ok sent
      /\ (forall c, In c (columns t) -> get sent c = Ok (lookup c props))
      /\ update_params t sent = Ok (map (fun c => lookup c props) (columns t)))
  /\ (exists sent shown,
         request_body t (JObj props) = Ok sent
         /\ transform t sent = Ok shown
         /\ (forall key, In key (form_fields t) ->
                         get shown key = Ok (lookup key props)))
  /\ (forall field, In field ("id" :: columns t ++ ["created_at"]) ->
                    carries (transform t) field).
Proof.
  split; [|split].
  - destruct t; simpl; do 2 eexists;
      (split; [reflexivity|]); (split; [reflexivity|]);
      (split; [|reflexivity]);
      intros c [<-|[<-|[<-|[<-|[]]]]]; reflexivity.
  - destruct t; simpl; do 2 eexists;
      (split; [reflexivity|]); (split; [reflexivity|]);
      intros c [<-|[<-|[<-|[<-|[]]]]]; reflexivity.
  - intros field Hin. unfold carries.
    destruct t; simpl in Hin;
      destruct Hin as [<-|[<-|[<-|[<-|[<-|[<-|[]]]]]]].
    + exists "id"%string. intros q. eexists. split; reflexivity.
    + exists "tenderNumber"%string. intros q. eexists. split; reflexivity.
    + exists "description"%string. intros q. eexists. split; reflexivity.
    + exists "closingDate"%string. intros q. eexists. split; reflexivity.
    + exists "siteVisits"%string. intros q. eexists. split; reflexivity.
    + exists "createdAt"%string. intros q. eexists. split; reflexivity.
    + exists "id"%string. intros q. eexists. split; reflexivity.
    + exists "description"%string. intros q. eexists. split; reflexivity.
    + exists "assignedTo"%string. intros q. eexists. split; reflexivity.
    + exists "dueDate"%string. intros q. eexists. split; reflexivity.
    + exists "status"%string. intros q. eexists. split; reflexivity.
    + exists "createdAt"%string. intros q. eexists. split; reflexivity.
Qed.

(** The first sample task, as fetched, shown and sent back. *)
Lemma record_round_trip_witness :
  exists shown sent,
    transform Tasks (row_json Tasks ship_report) = Ok shown
    /\ request_body Tasks shown = Ok sent
    /\ (forall c, In c (columns Tasks) ->
                  get sent c = get (row_json Tasks ship_report) c)
    /\ update_params Tasks sent = Ok (cells ship_report).
Proof.
  exact (proj1 (record_round_trip Tasks
                  [("id", JNum 1);
                   ("description", JStr "Ship report");
                   ("assigned_to", JStr "Alex");
                   ("due_date", JStr "2025-03-01");
                   ("status", JStr "SENT");
                   ("created_at", JDate 100);
                   ("updated_at", JDate 250)])).
Defined.

(** updated_at is a field of every stored record, and neither transformer
    carries it: two records that differ in updated_at alone are shown
    alike. *)
Lemma updated_at_is_not_carried :
  In "updated_at"%string (storage_fields Tenders)
  /\ In "updated_at"%string (storage_fields Tasks)
  /\ ~ carries (transform Tenders) "updated_at"
  /\ ~ carries (transform Tasks) "updated_at"
  /\ transformTask (row_json Tasks ship_report)
     = transformTask
         (row_json Tasks (mkRow 1 (cells ship_report) 100 999)).
Proof.
  assert (Hno : forall t, ~ carries (transform t) "updated_at").
  { intros t [key H].
    destruct (H [("updated_at"%string, JNum 1)]) as (out1 & Ht1 & Hg1).
    destruct (H [("updated_at"%string, JNum 2)]) as (out2 & Ht2 & Hg2).
    assert (out1 = out2)
      by (destruct t; vm_compute in Ht1, Ht2; congruence).
    subst out2. rewrite Hg1 in Hg2. discriminate. }
  split; [simpl; tauto|]. split; [simpl; tauto|].
  split; [apply Hno|]. split; [apply Hno | reflexivity].
Qed.

(* ------------------------------------------------------------------ *)
(** ** Ids are unique and never reused *)

Lemma row_id_updated (k : Z) (values : list jsval) (ts : Z) (rs : list row) :
  map row_id (updated k values ts rs) = map row_id rs.
Proof.
  unfold updated. rewrite map_map. apply map_ext.
  intros r. destruct (matches k r); reflexivity.
Qed.

Lemma well_keyed_updated
  (k : Z) (values : list jsval) (ts : Z) (tb : table) :
  well_keyed tb ->
  well_keyed (mkTable (updated k values ts (rows tb)) (next_id tb)).
Proof.
  intros [Hnd Hlt]. split; simpl.
  - now rewrite row_id_updated.
  - unfold updated. rewrite Forall_map.
    eapply Forall_impl; [|exact Hlt].
    intros r Hr. destruct (matches k r); exact Hr.
Qed.

Lemma well_keyed_without (k : Z) (tb : table) :
  well_keyed tb -> well_keyed (without k tb).
Proof.
  intros [Hnd Hlt]. split; simpl.
  - clear Hlt. induction (rows tb) as [|r rs IH]; simpl; [constructor|].
    inversion Hnd as [|x l Hnotin Hnd']; subst.
    destruct (matches k r); simpl; [now apply IH|].
    constructor; [|now apply IH].
    intros Hin. apply Hnotin.
    apply in_map_iff in Hin as (r' & Hr' & Hin).
    apply filter_In in Hin as [Hin _].
    apply in_map_iff. now exists r'.
  - apply Forall_forall. intros r Hin.
    apply filter_In in Hin as [Hin _].
    now apply (proj1 (Forall_forall _ _) Hlt).
Qed.

Lemma well_keyed_inserted (tb : table) (cs : list jsval) (ts : Z) :
  well_keyed tb ->
  well_keyed (mkTable (rows tb ++ [mkRow (next_id tb) cs ts ts])
                      (next_id tb + 1)).
Proof.
  intros [Hnd Hlt]. split; simpl.
  - rewrite map_app. simpl.
    apply NoDup_app; [exact Hnd | repeat constructor; intros [] |].
    intros x Hx [Hnext|[]].
    apply in_map_iff in Hx as (r & Hr & Hin).
    pose proof (proj1 (Forall_forall _ _) Hlt r Hin) as Hbelow.
    simpl in Hbelow. lia.
  - apply Forall_app. split.
    + eapply Forall_impl; [|exact Hlt]. simpl. intros r Hr. lia.
    + repeat constructor. simpl. lia.
Qed.

Lemma table_of_set_other (t t' : resource) (tb : table) (d : database) :
  t <> t' -> table_of t (set_table t' tb d) = table_of t d.
Proof. destruct t, t'; intros H; try reflexivity; contradiction. Qed.

Lemma well_keyed_set_table (t' : resource) (tb : table) (d : database) :
  well_keyed tb ->
  (forall t, well_keyed (table_of t d)) ->
  forall t, well_keyed (table_of t (set_table t' tb d)).
Proof.
  intros Htb Hd t.
  destruct t, t'; simpl; try exact Htb; try apply (Hd Tenders);
    apply (Hd Tasks).
Qed.

(** Every statement keeps the ids of both tables unique and below their
    sequences; an INSERT takes the next id, which no row has. *)
Lemma execute_well_keyed
  (q : statement) (d d' : database) (result_rows : list jsval) :
  execute q d = Some (result_rows, d') ->
  (forall t, well_keyed (table_of t d)) ->
  forall t, well_keyed (table_of t d').
Proof.
  unfold execute. destruct (reachable d); simpl; [|discriminate].
  destruct q as [t0 | t0 values | t0 values id | t0 id].
  - intros H. injection H as _ <-. auto.
  - destruct (admits d t0 values); [|discriminate].
    intros H Hd. injection H as _ <-.
    apply well_keyed_set_table; [|exact Hd].
    apply well_keyed_inserted, Hd.
  - destruct (id_in d id) as [k|]; [|discriminate].
    destruct (admits d t0 values); [|discriminate].
    intros H Hd. injection H as _ <-.
    apply well_keyed_set_table; [|exact Hd].
    apply (well_keyed_updated k values (now d)), Hd.
  - destruct (id_in d id) as [k|]; [|discriminate].
    intros H Hd. injection H as _ <-.
    apply well_keyed_set_table; [|exact Hd].
    apply (well_keyed_without k), Hd.
Qed.

Lemma pool_query_well_keyed (q : statement) (w : world) :
  (forall t, well_keyed (table_of t (db w))) ->
  forall t, well_keyed (table_of t (db (snd (pool_query q w)))).
Proof.
  intros Hd.
  destruct (db_pool_query q w) as [-> | (rs & d & He & ->)]; [exact Hd|].
  now apply (execute_well_keyed q (db w) d rs).
Qed.

(** A request runs at most one statement: the store it leaves is the one
    it found, or the one a single storage call left. *)
Lemma dispatch_single_statement (t : resource) (ev : event) (w : world) :
  db (snd (dispatch t ev w)) = db w
  \/ exists q, db (snd (dispatch t ev w)) = db (snd (pool_query q w)).
Proof.
  unfold dispatch, try_scope.
  destruct (httpMethod ev =? "OPTIONS")%string; [left; reflexivity|].
  destruct (httpMethod ev =? "GET")%string.
  { right. exists (Select t). unfold try_catch, bind, ret.
    destruct (pool_query (Select t) w) as [[rs|e] w']; reflexivity. }
  destruct (httpMethod ev =? "POST")%string.
  { destruct (body ev) as [bad|v]; [left; reflexivity|].
    cbv beta iota delta [try_catch bind lift ret JSON_parse].
    destruct (insert_params t v) as [params|e]; [|left; reflexivity].
    right. exists (Insert t params).
    destruct (pool_query (Insert t params) w) as [[rs|e] w']; reflexivity. }
  destruct (httpMethod ev =? "PUT")%string.
  { destruct (present (extract_id t (path ev))) as [id|]; [|left; reflexivity].
    destruct (body ev) as [bad|v]; [left; reflexivity|].
    cbv beta iota delta [try_catch bind lift ret JSON_parse].
    destruct (update_params t v) as [params|e]; [|left; reflexivity].
    right. exists (Update t params id).
    destruct (pool_query (Update t params id) w) as [[rs|e] w'];
      [destruct (List.length rs =? 0)%nat|]; reflexivity. }
  destruct (httpMethod ev =? "DELETE")%string; [|left; reflexivity].
  destruct (present (extract_id t (path ev))) as [id|]; [|left; reflexivity].
  right. exists (Delete t id). unfold try_catch, bind, ret.
  destruct (pool_query (Delete t id) w) as [[rs|e] w'];
    [destruct (List.length rs =? 0)%nat|]; reflexivity.
Qed.

(** Whatever the request, the handlers keep the ids of both tables unique
    and below their sequences. *)
Lemma handler_well_keyed
  (s : style) (t : resource) (ev : event) (w : world) :
  (forall t', well_keyed (table_of t' (db w))) ->
  forall t', well_keyed (table_of t' (db (snd (handler s t ev w)))).
Proof.
  intros Hd.
  destruct (handler_cases s t ev w) as [-> | [-> _]]; [|exact Hd].
  rewrite <- (db_after_init s w) in Hd.
  destruct (dispatch_single_statement t ev (after_init s w))
    as [-> | [q ->]]; [exact Hd|].
  now apply pool_query_well_keyed.
Qed.

(** The id a created task gets is the id of no earlier row. *)
Lemma created_task_id_is_fresh (v status : jsval) (d : database) :
  well_keyed (tasks d) ->
  ~ In (row_id (created_task v status d)) (map row_id (rows (tasks d))).
Proof.
  intros [_ Hlt] Hin. apply in_map_iff in Hin as (r & Hr & Hin).
  pose proof (proj1 (Forall_forall _ _) Hlt r Hin) as Hbelow.
  simpl in Hbelow, Hr. lia.
Qed.

(* ================================================================== *)
(** * Further properties of the handlers *)

(* ------------------------------------------------------------------ *)
(** ** Methods without a branch *)

Lemma unsupported_method (m : string) :
  ~ In m supported ->
  (m =? "OPTIONS")%string = false /\ (m =? "GET")%string = false
  /\ (m =? "POST")%string = false /\ (m =? "PUT")%string = false
  /\ (m =? "DELETE")%string = false.
Proof.
  intros H. repeat split; apply String.eqb_neq; intros ->; apply H;
    simpl; tauto.
Qed.

(** Any method other than OPTIONS, GET, POST, PUT and DELETE (compared as
    written, so "get" is one) is answered 405 with "Method not allowed",
    once the pool is there; no statement runs and the store is as it
    was. *)
Theorem other_methods_not_allowed
  (s : style) (t : resource) (ev : event) (w : world) :
  ~ In (httpMethod ev) supported ->
  ready s w = true ->
  handler s t ev w
  = (respond 405 (error_body "Method not allowed"), after_init s w)
  /\ db (after_init s w) = db w
  /\ queries (trace (after_init s w)) = queries (trace w).
Proof.
  intros Hm Hready.
  destruct (unsupported_method _ Hm) as (H1 & H2 & H3 & H4 & H5).
  rewrite handler_ready by exact Hready.
  unfold dispatch, try_scope. rewrite H1, H2, H3, H4, H5.
  split; [reflexivity|].
  split; [apply db_after_init | apply queries_after_init].
Qed.

(** PATCH, and GET in lower case. *)
Lemma other_methods_not_allowed_witness :
  fst (tasks_handler (mkEvent "PATCH" "/.netlify/functions/tasks/1"
                              (Denotes (JObj [("status", JStr "SENT")])))
                     loaded)
  = respond 405 (error_body "Method not allowed")
  /\ fst (tenders_handler (mkEvent "get" "/.netlify/functions/tenders"
                                   (Denotes JNull)) fresh)
     = respond 405 (error_body "Method not allowed").
Proof.
  split.
  - refine (f_equal fst (proj1 (other_methods_not_allowed AtLoad Tasks _ loaded
                                  _ eq_refl))).
    simpl. intros [H|[H|[H|[H|[H|[]]]]]]; discriminate.
  - refine (f_equal fst (proj1 (other_methods_not_allowed OnDemand Tenders _
                                  fresh _ eq_refl))).
    simpl. intros [H|[H|[H|[H|[H|[]]]]]]; discriminate.
Defined.

(* ------------------------------------------------------------------ *)
(** ** The id is the last path segment *)

Lemma split_whole (sep : ascii) (s : string) :
  occurs sep s = false -> split sep s = [s].
Proof.
  induction s as [|c s IH]; simpl; [reflexivity|].
  intros H. apply orb_false_iff in H as [Hc Hs].
  rewrite Hc, (IH Hs). reflexivity.
Qed.

Lemma split_last_segment (sep : ascii) (p seg : string) :
  occurs sep seg = false ->
  split sep (p ++ String sep seg)%string = split sep p ++ [seg].
Proof.
  intros Hseg. induction p as [|c p IH]; simpl.
  - rewrite Ascii.eqb_refl, (split_whole _ _ Hseg). reflexivity.
  - rewrite IH. destruct (Ascii.eqb c sep); [reflexivity|].
    pose proof (split_nonempty sep p) as Hne.
    destruct (split sep p); [contradiction | reflexivity].
Qed.

Lemma extract_id_segment (t : resource) (p seg : string) :
  occurs "/" seg = false ->
  extract_id t (p ++ "/" ++ seg)
  = if (seg =? name t)%string then None else Some seg.
Proof.
  intros Hseg. unfold extract_id.
  change (p ++ "/" ++ seg)%string with (p ++ String "/" seg)%string.
  rewrite (split_last_segment _ _ _ Hseg), last_last. reflexivity.
Qed.

(** Whatever precedes the last slash of the path is ignored: the id is the
    text after it, and there is none ([null]) exactly when that text is the
    collection name.  So the path of an item whose id is the collection
    name reads as the collection itself. *)
Theorem id_is_last_segment (t : resource) (p seg : string) :
  occurs "/" seg = false ->
  extract_id t (p ++ "/" ++ seg)
  = if (seg =? name t)%string then None else Some seg.
Proof. apply extract_id_segment. Qed.

Lemma id_is_last_segment_witness :
  extract_id Tasks "/.netlify/functions/tasks/17" = Some "17"%string
  /\ extract_id Tasks "/api/v2/anything/17" = Some "17"%string
  /\ extract_id Tasks "/.netlify/functions/tasks" = None
  /\ extract_id Tasks "/.netlify/functions/tasks/tasks" = None
  /\ extract_id Tenders "/.netlify/functions/tenders/tasks" = Some "tasks"%string.
Proof.
  split; [|split; [|split; [|split]]].
  - exact (id_is_last_segment Tasks "/.netlify/functions/tasks" "17" eq_refl).
  - exact (id_is_last_segment Tasks "/api/v2/anything" "17" eq_refl).
  - exact (id_is_last_segment Tasks "/.netlify/functions" "tasks" eq_refl).
  - exact (id_is_last_segment Tasks "/.netlify/functions/tasks" "tasks" eq_refl).
  - exact (id_is_last_segment Tenders "/.netlify/functions/tenders" "tasks"
             eq_refl).
Defined.

(** A PUT or DELETE on the collection itself (the path ends in the
    collection name) has no id: it is answered 400 with the method's "ID is
    required" message, runs no statement and leaves the store as it was. *)
Theorem write_to_collection_needs_id
  (s : style) (t : resource) (ev : event) (w : world) (p : string) :
  path ev = (p ++ "/" ++ name t)%string ->
  ready s w = true ->
  (httpMethod ev = "PUT" ->
   handler s t ev w
   = (respond 400 (error_body "ID is required for update"), after_init s w))
  /\ (httpMethod ev = "DELETE" ->
      handler s t ev w
      = (respond 400 (error_body "ID is required for delete"), after_init s w))
  /\ db (after_init s w) = db w
  /\ queries (trace (after_init s w)) = queries (trace w).
Proof.
  intros Hpath Hready.
  assert (Hid : present (extract_id t (path ev)) = None).
  { rewrite Hpath, extract_id_segment by (destruct t; reflexivity).
    rewrite String.eqb_refl. reflexivity. }
  split; [|split; [|split]].
  - intros Hm. rewrite handler_ready, dispatch_put by assumption.
    rewrite Hid. reflexivity.
  - intros Hm. rewrite handler_ready, dispatch_delete by assumption.
    rewrite Hid. reflexivity.
  - apply db_after_init.
  - apply queries_after_init.
Qed.

Lemma write_to_collection_needs_id_witness :
  let put := mkEvent "PUT" "/.netlify/functions/tasks"
                     (Denotes (JObj [("status", JStr "SENT")])) in
  let delete := mkEvent "DELETE" "/.netlify/functions/tenders"
                        (Denotes JNull) in
  fst (tasks_handler put loaded)
  = respond 400 (error_body "ID is required for update")
  /\ fst (tenders_handler delete fresh)
     = respond 400 (error_body "ID is required for delete").
Proof.
  intros put delete. split.
  - exact (f_equal fst
             (proj1 (write_to_collection_needs_id AtLoad Tasks put loaded
                       "/.netlify/functions" eq_refl eq_refl) eq_refl)).
  - exact (f_equal fst
             (proj1 (proj2 (write_to_collection_needs_id OnDemand Tenders
                              delete fresh "/.netlify/functions"
                              eq_refl eq_refl))
                    eq_refl)).
Defined.

(* ------------------------------------------------------------------ *)
(** ** Updates replace the whole row *)

Lemma read_all_props (v : jsval) (keys : list string) (vs : list jsval) :
  read_all v keys = Ok vs -> vs = map (prop v) keys.
Proof.
  revert vs. induction keys as [|key keys IH]; simpl; intros vs H.
  - now injection H as <-.
  - unfold prop at 1. destruct (get v key) as [x|e]; [|discriminate].
    destruct (read_all v keys) as [xs|e]; [|discriminate].
    injection H as <-. now rewrite (IH xs eq_refl).
Qed.

Lemma updated_row_by_row (k : Z) (values : list jsval) (ts : Z) (rs : list row) :
  Forall2 (kept_or_rewritten k (map prepareValue values) ts)
          rs (updated k values ts rs).
Proof.
  induction rs as [|r rs IH]; simpl; constructor; [|exact IH].
  unfold kept_or_rewritten. destruct (matches k r); simpl; auto.
Qed.

Lemma matched_row (k : Z) (rs : list row) :
  existsb (matches k) rs = true ->
  exists r rest, filter (matches k) rs = r :: rest /\ In r rs
                 /\ row_id r = k.
Proof.
  intros H. pose proof (filter_matched k rs H) as Hne.
  destruct (filter (matches k) rs) as [|r rest] eqn:E; [contradiction|].
  assert (Hin : In r (filter (matches k) rs)) by (rewrite E; now left).
  apply filter_In in Hin as [Hin Hk].
  exists r, rest. repeat split; [exact Hin | now apply Z.eqb_eq].
Qed.

(** A PUT whose id matches a row, with a body whose properties can be
    read, on a store that accepts the values: the answer is 200 with the
    row after the write.  The row keeps its id and its creation time; each
    of its four client-writable columns gets the body's value, NULL where
    the body has none (there is no partial update); [updated_at] becomes
    the current time.  Every other row, and the id sequence, is as
    before. *)
Theorem put_replaces_whole_row
  (s : style) (t : resource) (ev : event) (w : world)
  (id : string) (k : Z) (v : jsval) (params : list jsval) :
  httpMethod ev = "PUT" ->
  present (extract_id t (path ev)) = Some id ->
  body ev = Denotes v ->
  update_params t v = Ok params ->
  ready s w = true ->
  reachable (db w) = true ->
  id_in (db w) id = Some k ->
  admits (db w) t params = true ->
  existsb (matches k) (rows (table_of t (db w))) = true ->
  let before := table_of t (db w) in
  let after := table_of t (db (snd (handler s t ev w))) in
  let written := map (fun c => prepareValue (prop v c)) (columns t) in
  Forall2 (kept_or_rewritten k written (now (db w)))
          (rows before) (rows after)
  /\ next_id after = next_id before
  /\ exists r,
       In r (rows before) /\ row_id r = k
       /\ fst (handler s t ev w)
          = respond 200 (JSON_stringify
                           (row_json t (mkRow k written (created_at r)
                                              (now (db w))))).
Proof.
  intros Hm Hp Hbody Hparams Hready Hreach Hid Hadm Hyes before after written.
  destruct (pool_after_init s w Hready) as [p Hpool].
  pose proof (dispatch_put_run t ev (after_init s w) p id k v params
                Hm Hp Hbody Hparams Hpool) as Hrun.
  rewrite db_after_init in Hrun. specialize (Hrun Hreach Hid Hadm).
  cbv zeta in Hrun.
  assert (Hwritten : map prepareValue params = written).
  { unfold written. rewrite (read_all_props v (columns t) params Hparams).
    apply map_map. }
  subst after. rewrite handler_ready by exact Hready. rewrite Hrun.
  simpl snd. simpl fst. simpl db. rewrite table_of_set_table. simpl rows.
  simpl next_id. fold before. split; [|split; [reflexivity|]].
  - rewrite <- Hwritten. apply updated_row_by_row.
  - destruct (matched_row k (rows before) Hyes) as (r & rest & Hf & Hin & Hk).
    exists r. rewrite Hf. unfold overwrite. rewrite Hwritten, Hk.
    repeat split; assumption.
Qed.

(** PUT /tasks/1 with a body that has only a status: the other three
    columns become NULL. *)
Lemma put_replaces_whole_row_witness :
  let ev := mkEvent "PUT" "/.netlify/functions/tasks/1"
                    (Denotes (JObj [("status", JStr "COMPLETED")])) in
  Forall2 (kept_or_rewritten 1 [JNull; JNull; JNull; JStr "COMPLETED"] 1000)
          [ship_report; call_supplier]
          (rows (tasks (db (snd (tasks_handler ev loaded))))).
Proof.
  intros ev.
  exact (proj1 (put_replaces_whole_row AtLoad Tasks ev loaded "1" 1 _ _
                  eq_refl eq_refl eq_refl eq_refl eq_refl eq_refl eq_refl
                  eq_refl eq_refl)).
Defined.

(* ------------------------------------------------------------------ *)
(** ** Creating tenders *)

Lemma insert_params_tender (v : jsval) (params : list jsval) :
  insert_params Tenders v = Ok params ->
  params = map (prop v) (columns Tenders).
Proof.
  destruct v; simpl; try discriminate; intros H; injection H as <-;
    reflexivity.
Qed.

Lemma dispatch_post_run
  (t : resource) (ev : event) (w : world) (p : Pool)
  (v : jsval) (params : list jsval) :
  httpMethod ev = "POST" ->
  body ev = Denotes v ->
  insert_params t v = Ok params ->
  pool w = Some p ->
  reachable (db w) = true ->
  admits (db w) t params = true ->
  let tb := table_of t (db w) in
  let r := mkRow (next_id tb) (map prepareValue params)
                 (now (db w)) (now (db w)) in
  dispatch t ev w =
    (respond 201 (JSON_stringify (row_json t r)),
     set_db (set_table t (mkTable (rows tb ++ [r]) (next_id tb + 1)) (db w))
            (record (Query (Insert t params)) w)).
Proof.
  intros Hm Hbody Hparams Hpool Hreach Hadm tb r.
  rewrite dispatch_post by exact Hm. rewrite Hbody.
  cbv beta iota delta [try_catch bind lift ret JSON_parse].
  rewrite Hparams, (pool_query_run _ _ p Hpool).
  unfold execute. rewrite Hreach, Hadm. reflexivity.
Qed.

(** A POST to the tenders handler, with a body whose properties can be
    read, on a store that accepts the values, is answered 201 with the new
    row, which is added after the others.  Its four client-writable
    columns hold the body's values as sent, NULL where the body has none:
    nothing is defaulted.  It gets the next id, and the current time as
    both timestamps.  The tasks table is untouched. *)
Theorem post_tender_stores_as_sent
  (s : style) (ev : event) (w : world) (v : jsval) (params : list jsval) :
  httpMethod ev = "POST" ->
  body ev = Denotes v ->
  insert_params Tenders v = Ok params ->
  ready s w = true ->
  reachable (db w) = true ->
  admits (db w) Tenders params = true ->
  let r := mkRow (next_id (tenders (db w)))
                 (map (fun c => prepareValue (prop v c)) (columns Tenders))
                 (now (db w)) (now (db w)) in
  fst (handler s Tenders ev w) = respond 201 (JSON_stringify (row_json Tenders r))
  /\ tenders (db (snd (handler s Tenders ev w)))
     = mkTable (rows (tenders (db w)) ++ [r]) (next_id (tenders (db w)) + 1)
  /\ tasks (db (snd (handler s Tenders ev w))) = tasks (db w).
Proof.
  intros Hm Hbody Hparams Hready Hreach Hadm r.
  destruct (pool_after_init s w Hready) as [p Hpool].
  pose proof (dispatch_post_run Tenders ev (after_init s w) p v params
                Hm Hbody Hparams Hpool) as Hrun.
  rewrite db_after_init in Hrun. specialize (Hrun Hreach Hadm).
  cbv zeta in Hrun. rewrite handler_ready by exact Hready. rewrite Hrun.
  rewrite (insert_params_tender v params Hparams). repeat split.
Qed.

(** POST /tenders without site visits. *)
Lemma post_tender_stores_as_sent_witness :
  let ev := mkEvent "POST" "/.netlify/functions/tenders"
                    (Denotes (JObj [("tender_number", JStr "T-18");
                                    ("description", JStr "Bridge repair");
                                    ("closing_date", JStr "2025-09-01")])) in
  fst (tenders_handler ev fresh)
  = respond 201
      (JSON_stringify
         (JObj [("id", JNum 2);
                ("tender_number", JStr "T-18");
                ("description", JStr "Bridge repair");
                ("closing_date", JStr "2025-09-01");
                ("site_visits", JNull);
                ("created_at", JDate 1000);
                ("updated_at", JDate 1000)])).
Proof.
  intros ev.
  exact (proj1 (post_tender_stores_as_sent OnDemand ev fresh _ _
                  eq_refl eq_refl eq_refl eq_refl eq_refl eq_refl)).
Defined.

(* ------------------------------------------------------------------ *)
(** ** Writes show in the next listing *)

Lemma dispatch_get_run (t : resource) (ev : event) (w : world) (p : Pool) :
  httpMethod ev = "GET" ->
  pool w = Some p ->
  reachable (db w) = true ->
  dispatch t ev w =
    (respond 200 (JSON_stringify
                    (JArr (map (row_json t)
                               (newest_first (rows (table_of t (db w))))))),
     record (Query (Select t)) w).
Proof.
  intros Hm Hpool Hreach. rewrite dispatch_get by exact Hm.
  cbv beta iota delta [try_catch bind ret].
  rewrite (pool_query_run _ _ p Hpool). unfold execute. rewrite Hreach.
  reflexivity.
Qed.

Lemma newest_first_latest (r : row) (rs : list row) :
  Forall (fun x => created_at x < created_at r) rs ->
  newest_first (rs ++ [r]) = r :: newest_first rs.
Proof.
  induction 1 as [|x rs Hx Hrs IH]; simpl; [reflexivity|].
  rewrite IH. simpl.
  destruct (created_at r <=? created_at x) eqn:E; [|reflexivity].
  apply Z.leb_le in E. lia.
Qed.

(** After a POST that went through, a GET to the same handler lists the
    new row together with the rows there were.  When every earlier row was
    created before the current time, the new row comes first. *)
Theorem created_record_is_listed
  (s : style) (t : resource) (post read : event) (w : world)
  (v : jsval) (params : list jsval) :
  httpMethod post = "POST" ->
  body post = Denotes v ->
  insert_params t v = Ok params ->
  httpMethod read = "GET" ->
  ready s w = true ->
  reachable (db w) = true ->
  admits (db w) t params = true ->
  let before := rows (table_of t (db w)) in
  let r := mkRow (next_id (table_of t (db w))) (map prepareValue params)
                 (now (db w)) (now (db w)) in
  exists listed,
    fst (handler s t read (snd (handler s t post w)))
    = respond 200 (JSON_stringify (JArr (map (row_json t) listed)))
    /\ Permutation listed (r :: before)
    /\ (Forall (fun x => created_at x < now (db w)) before ->
        listed = r :: newest_first before).
Proof.
  intros Hpost Hbody Hparams Hlist Hready Hreach Hadm before r.
  destruct (pool_after_init s w Hready) as [p Hpool].
  pose proof (dispatch_post_run t post (after_init s w) p v params
                Hpost Hbody Hparams Hpool) as Hrun.
  rewrite db_after_init in Hrun. specialize (Hrun Hreach Hadm).
  cbv zeta in Hrun. rewrite (handler_ready s t post w Hready), Hrun.
  simpl snd. fold r. set (w1 := set_db _ _).
  assert (Hpool1 : pool w1 = Some p) by exact Hpool.
  destruct (ready_of_pool s w1 p Hpool1) as [Hready1 Hafter1].
  rewrite (handler_ready s t read w1 Hready1), Hafter1.
  rewrite (dispatch_get_run t read w1 p Hlist Hpool1)
    by (subst w1; destruct t; exact Hreach).
  subst w1. simpl db. rewrite table_of_set_table. simpl rows. fold before.
  exists (newest_first (before ++ [r])).
  split; [reflexivity|]. split.
  - rewrite newest_first_perm. apply Permutation_sym, Permutation_cons_append.
  - intros Hearlier. now apply newest_first_latest.
Qed.

(** POST /tasks, then GET /tasks. *)
Lemma created_record_is_listed_witness :
  let post := mkEvent "POST" "/.netlify/functions/tasks"
                      (Denotes (JObj [("description", JStr "Order signs")])) in
  let read := mkEvent "GET" "/.netlify/functions/tasks" (Denotes JNull) in
  let r := mkRow 3 [JStr "Order signs"; JNull; JNull; JStr "PENDING"]
                 1000 1000 in
  fst (tasks_handler read (snd (tasks_handler post loaded)))
  = respond 200 (JSON_stringify
                   (JArr (map (row_json Tasks)
                              [r; call_supplier; ship_report]))).
Proof.
  intros post read r.
  destruct (created_record_is_listed AtLoad Tasks post read loaded _ _
              eq_refl eq_refl eq_refl eq_refl eq_refl eq_refl eq_refl)
    as (listed & Hresp & _ & Hfirst).
  unfold tasks_handler. rewrite Hresp, Hfirst; [reflexivity|].
  repeat constructor.
Defined.

(** After a DELETE that removed a row, a GET to the same handler lists
    the rows that were there except those with the deleted id: no listed
    row has that id. *)
Theorem deleted_record_is_not_listed
  (s : style) (t : resource) (delete read : event) (w : world)
  (id : string) (k : Z) :
  httpMethod delete = "DELETE" ->
  present (extract_id t (path delete)) = Some id ->
  httpMethod read = "GET" ->
  ready s w = true ->
  reachable (db w) = true ->
  id_in (db w) id = Some k ->
  exists listed,
    fst (handler s t read (snd (handler s t delete w)))
    = respond 200 (JSON_stringify (JArr (map (row_json t) listed)))
    /\ Permutation listed
         (filter (fun r => negb (matches k r)) (rows (table_of t (db w))))
    /\ Forall (fun r => row_id r <> k) listed.
Proof.
  intros Hdel Hp Hlist Hready Hreach Hid.
  destruct (pool_after_init s w Hready) as [p Hpool].
  pose proof (dispatch_delete_run t delete (after_init s w) p id k
                Hdel Hp Hpool) as Hrun.
  rewrite db_after_init in Hrun. specialize (Hrun Hreach Hid).
  rewrite (handler_ready s t delete w Hready), Hrun.
  simpl snd. set (w1 := set_db _ _).
  assert (Hpool1 : pool w1 = Some p) by exact Hpool.
  destruct (ready_of_pool s w1 p Hpool1) as [Hready1 Hafter1].
  rewrite (handler_ready s t read w1 Hready1), Hafter1.
  rewrite (dispatch_get_run t read w1 p Hlist Hpool1)
    by (subst w1; destruct t; exact Hreach).
  subst w1. simpl db. rewrite table_of_set_table. simpl rows.
  eexists. split; [reflexivity|]. split; [apply newest_first_perm|].
  apply Forall_forall. intros r Hin.
  apply (Permutation_in _ (newest_first_perm _)) in Hin.
  apply filter_In in Hin as [_ Hk]. unfold matches in Hk.
  apply negb_true_iff, Z.eqb_neq in Hk. exact Hk.
Qed.

(** DELETE /tasks/2, then GET /tasks. *)
Lemma deleted_record_is_not_listed_witness :
  let delete := mkEvent "DELETE" "/.netlify/functions/tasks/2" (Denotes JNull) in
  let read := mkEvent "GET" "/.netlify/functions/tasks" (Denotes JNull) in
  exists listed,
    fst (tasks_handler read (snd (tasks_handler delete loaded)))
    = respond 200 (JSON_stringify (JArr (map (row_json Tasks) listed)))
    /\ Permutation listed [ship_report]
    /\ Forall (fun r => row_id r <> 2) listed.
Proof.
  intros delete read.
  exact (deleted_record_is_not_listed AtLoad Tasks delete read loaded "2" 2
           eq_refl eq_refl eq_refl eq_refl eq_refl eq_refl).
Defined.

(* ------------------------------------------------------------------ *)
(** ** What one request can do *)

(** A request leaves the process as it found it, or as one storage call on
    the handler's own table left it. *)
Lemma dispatch_effect (t : resource) (ev : event) (w : world) :
  snd (dispatch t ev w) = w
  \/ exists q, table_name q = t /\ snd (dispatch t ev w) = snd (pool_query q w).
Proof.
  unfold dispatch, try_scope.
  destruct (httpMethod ev =? "OPTIONS")%string; [left; reflexivity|].
  destruct (httpMethod ev =? "GET")%string.
  { right. exists (Select t). split; [reflexivity|].
    unfold try_catch, bind, ret.
    destruct (pool_query (Select t) w) as [[rs|e] w']; reflexivity. }
  destruct (httpMethod ev =? "POST")%string.
  { destruct (body ev) as [bad|v]; [left; reflexivity|].
    cbv beta iota delta [try_catch bind lift ret JSON_parse].
    destruct (insert_params t v) as [params|e]; [|left; reflexivity].
    right. exists (Insert t params). split; [reflexivity|].
    destruct (pool_query (Insert t params) w) as [[rs|e] w']; reflexivity. }
  destruct (httpMethod ev =? "PUT")%string.
  { destruct (present (extract_id t (path ev))) as [id|]; [|left; reflexivity].
    destruct (body ev) as [bad|v]; [left; reflexivity|].
    cbv beta iota delta [try_catch bind lift ret JSON_parse].
    destruct (update_params t v) as [params|e]; [|left; reflexivity].
    right. exists (Update t params id). split; [reflexivity|].
    destruct (pool_query (Update t params id) w) as [[rs|e] w'];
      [destruct (List.length rs =? 0)%nat|]; reflexivity. }
  destruct (httpMethod ev =? "DELETE")%string; [|left; reflexivity].
  destruct (present (extract_id t (path ev))) as [id|]; [|left; reflexivity].
  right. exists (Delete t id). split; [reflexivity|].
  unfold try_catch, bind, ret.
  destruct (pool_query (Delete t id) w) as [[rs|e] w'];
    [destruct (List.length rs =? 0)%nat|]; reflexivity.
Qed.

Lemma pool_query_effect (q : statement) (w : world) :
  pool (snd (pool_query q w)) = pool w
  /\ pools_built (trace (snd (pool_query q w))) = pools_built (trace w)
  /\ (queries (trace (snd (pool_query q w))) = queries (trace w)
      \/ queries (trace (snd (pool_query q w))) = q :: queries (trace w)).
Proof.
  unfold pool_query. destruct (pool w) as [p|] eqn:E; simpl.
  - destruct (execute q (db w)) as [[rs d]|]; simpl; auto.
  - rewrite E. auto.
Qed.

Lemma init_pool_effect (w : world) :
  queries (trace (snd (init_pool w))) = queries (trace w)
  /\ (pools_built (trace w) = (if is_some (pool w) then 1 else 0)%nat ->
      pools_built (trace (snd (init_pool w)))
      = (if is_some (pool (snd (init_pool w))) then 1 else 0)%nat)
  /\ (forall p, pool w = Some p -> snd (init_pool w) = w).
Proof.
  unfold init_pool, new_Pool. destruct (pool w) as [p|] eqn:E; simpl.
  - rewrite E. auto.
  - destruct (no_url (DATABASE_URL w)); simpl;
      [|destruct (Pool_throws w); simpl]; rewrite ?E;
      (split; [reflexivity|]);
      (split; [|intros p Hp; discriminate]).
    + auto.
    + auto.
    + simpl. intros ->. reflexivity.
Qed.

(** Every invocation runs at most one statement, and only on the table of
    its own resource. *)
Theorem at_most_one_statement
  (s : style) (t : resource) (ev : event) (w : world) :
  queries (trace (snd (handler s t ev w))) = queries (trace w)
  \/ exists q,
       table_name q = t
       /\ queries (trace (snd (handler s t ev w))) = q :: queries (trace w).
Proof.
  destruct (handler_cases s t ev w) as [-> | (_ & Hq & _)]; [|now left].
  rewrite <- (queries_after_init s w).
  destruct (dispatch_effect t ev (after_init s w)) as [-> | (q & Ht & ->)];
    [now left|].
  destruct (pool_query_effect q (after_init s w)) as (_ & _ & [H|H]);
    [now left | right; now exists q].
Qed.

(** The pool is built at most once in the life of a process: if at most
    one pool has been built, and one exactly when the variable [pool] is
    set, the same is true after any invocation; and a pool that is set
    stays the one it is. *)
Theorem pool_built_once
  (s : style) (t : resource) (ev : event) (w : world) :
  pools_built (trace w) = (if is_some (pool w) then 1 else 0)%nat ->
  let w' := snd (handler s t ev w) in
  pools_built (trace w') = (if is_some (pool w') then 1 else 0)%nat
  /\ (forall p, pool w = Some p -> pool w' = Some p).
Proof.
  intros Hinv w'. subst w'.
  assert (Hstep : forall w0,
             pools_built (trace w0) = (if is_some (pool w0) then 1 else 0)%nat ->
             pools_built (trace (snd (dispatch t ev w0)))
             = (if is_some (pool (snd (dispatch t ev w0))) then 1 else 0)%nat
             /\ pool (snd (dispatch t ev w0)) = pool w0).
  { intros w0 H0.
    destruct (dispatch_effect t ev w0) as [-> | (q & _ & ->)]; [now split|].
    destruct (pool_query_effect q w0) as (Hp & Hb & _).
    rewrite Hp, Hb. now split. }
  destruct s; simpl.
  - destruct (Hstep w Hinv) as [H1 H2]. split; [exact H1|].
    intros p Hp. now rewrite H2.
  - destruct (init_pool_effect w) as (_ & Hinit & Hsame).
    destruct (init_pool w) as [[early|] w0] eqn:E; simpl in *.
    + split; [now apply Hinit|].
      intros p Hp. rewrite (Hsame p Hp). exact Hp.
    + destruct (Hstep w0 (Hinit Hinv)) as [H1 H2]. split; [exact H1|].
      intros p Hp. rewrite H2, (Hsame p Hp). exact Hp.
Qed.

(** The first invocation of a process builds the pool; the second finds
    it. *)
Lemma pool_built_once_witness :
  let ev := mkEvent "GET" "/.netlify/functions/tenders" (Denotes JNull) in
  let w1 := snd (tenders_handler ev fresh) in
  let w2 := snd (tenders_handler ev w1) in
  pools_built (trace w1) = 1%nat
  /\ pools_built (trace w2) = 1%nat
  /\ pool w2 = pool w1.
Proof.
  intros ev w1 w2.
  destruct (pool_built_once OnDemand Tenders ev fresh eq_refl) as [H1 _].
  destruct (pool_built_once OnDemand Tenders ev w1 H1) as [H2 Hsame].
  split; [exact H1|]. split; [exact H2|].
  exact (Hsame _ eq_refl).
Defined.

(** When the Pool constructor throws, the handler that builds its pool on
    demand answers every request, the preflight included, 500 with
    "Database connection error"; [pool] stays unset, so that the next
    invocation tries again, and nothing else happens. *)
Theorem pool_failure_is_answered
  (t : resource) (ev : event) (w : world) :
  pool w = None ->
  no_url (DATABASE_URL w) = false ->
  Pool_throws w = true ->
  handler OnDemand t ev w
  = (mkResponse 500 config_headers (error_body "Database connection error"),
     w).
Proof.
  intros Hpool Hurl Hthrows. simpl. unfold init_pool, new_Pool.
  rewrite Hpool, Hurl, Hthrows. reflexivity.
Qed.

Lemma pool_failure_is_answered_witness :
  let w := mkWorld (Some "postgres://db") true None store [] in
  tenders_handler (mkEvent "OPTIONS" "/.netlify/functions/tenders"
                           (Denotes JNull)) w
  = (mkResponse 500 config_headers (error_body "Database connection error"),
     w).
Proof.
  intros w.
  exact (pool_failure_is_answered Tenders _ w eq_refl eq_refl eq_refl).
Defined.

(* ------------------------------------------------------------------ *)
(** ** What a request leaves of the tables *)

Lemma execute_other_table
  (q : statement) (d d' : database) (result_rows : list jsval) (t : resource) :
  execute q d = Some (result_rows, d') ->
  t <> table_name q ->
  table_of t d' = table_of t d.
Proof.
  unfold execute. destruct (reachable d); simpl; [|discriminate].
  destruct q as [t0 | t0 values | t0 values id | t0 id]; simpl.
  - intros H _. now injection H as _ <-.
  - destruct (admits d t0 values); [|discriminate].
    intros H Ht. injection H as _ <-. now apply table_of_set_other.
  - destruct (id_in d id); [|discriminate].
    destruct (admits d t0 values); [|discriminate].
    intros H Ht. injection H as _ <-. now apply table_of_set_other.
  - destruct (id_in d id); [|discriminate].
    intros H Ht. injection H as _ <-. now apply table_of_set_other.
Qed.

(** The store a handler leaves: the one it found, or the one a statement
    on its own table made of it. *)
Lemma handler_db_cases (s : style) (t : resource) (ev : event) (w : world) :
  db (snd (handler s t ev w)) = db w
  \/ exists q result_rows,
       table_name q = t
       /\ execute q (db w) = Some (result_rows, db (snd (handler s t ev w))).
Proof.
  destruct (handler_cases s t ev w) as [-> | [H _]]; [|now left].
  rewrite <- (db_after_init s w).
  destruct (dispatch_effect t ev (after_init s w)) as [-> | (q & Ht & ->)];
    [now left|].
  destruct (db_pool_query q (after_init s w)) as [-> | (rs & d & He & ->)];
    [now left|].
  right. now exists q, rs.
Qed.

(** A handler never writes to the other resource's table. *)
Theorem other_table_untouched
  (s : style) (t t' : resource) (ev : event) (w : world) :
  t' <> t ->
  table_of t' (db (snd (handler s t ev w))) = table_of t' (db w).
Proof.
  intros Hne.
  destruct (handler_db_cases s t ev w) as [-> | (q & rs & Ht & He)];
    [reflexivity|].
  apply (execute_other_table q _ _ rs); [exact He | now rewrite Ht].
Qed.

(** A DELETE on the tasks handler with an id that is also a tender's. *)
Lemma other_table_untouched_witness :
  let ev := mkEvent "DELETE" "/.netlify/functions/tasks/1" (Denotes JNull) in
  tenders (db (snd (tasks_handler ev loaded))) = tenders store.
Proof.
  intros ev.
  assert (H : Tenders <> Tasks) by discriminate.
  exact (other_table_untouched AtLoad Tasks Tenders ev loaded H).
Defined.

(** The tables of the sample store have unique ids below their sequences,
    and so they have after a POST. *)
Lemma handler_well_keyed_witness :
  forall t',
    well_keyed
      (table_of t'
         (db (snd (tasks_handler
                     (mkEvent "POST" "/.netlify/functions/tasks"
                              (Denotes (JObj [("description", JStr "x")])))
                     loaded)))).
Proof.
  apply handler_well_keyed.
  intros [|]; (split; [repeat constructor; simpl; intuition discriminate|]);
    repeat constructor.
Defined.

Lemma execute_rows_origin
  (q : statement) (d d' : database) (result_rows : list jsval)
  (t : resource) (r' : row) :
  execute q d = Some (result_rows, d') ->
  In r' (rows (table_of t d')) ->
  (exists r, In r (rows (table_of t d))
             /\ row_id r = row_id r' /\ created_at r = created_at r')
  \/ (row_id r' = next_id (table_of t d)
      /\ created_at r' = now d /\ updated_at r' = now d).
Proof.
  assert (Hsame : In r' (rows (table_of t d)) ->
                  exists r, In r (rows (table_of t d))
                            /\ row_id r = row_id r'
                            /\ created_at r = created_at r')
    by (intros H; now exists r').
  unfold execute. destruct (reachable d); simpl; [|discriminate].
  destruct q as [t0 | t0 values | t0 values id | t0 id].
  - intros H. injection H as _ <-. auto.
  - destruct (admits d t0 values); [|discriminate].
    intros H. injection H as _ <-.
    destruct t, t0; simpl; auto; intros Hin;
      apply in_app_or in Hin as [Hin | [<- | []]]; auto.
  - destruct (id_in d id) as [k|]; [|discriminate].
    destruct (admits d t0 values); [|discriminate].
    intros H. injection H as _ <-.
    destruct t, t0; simpl; auto; intros Hin; left;
      apply in_map_iff in Hin as (r & <- & Hin); exists r;
      (split; [exact Hin|]); destruct (matches k r); split; reflexivity.
  - destruct (id_in d id) as [k|]; [|discriminate].
    intros H. injection H as _ <-.
    destruct t, t0; simpl; auto; intros Hin;
      apply filter_In in Hin as [Hin _]; auto.
Qed.

(** Whatever the request, a row of either table after it is a row that was
    there, with the id and the creation time it had, or the one row the
    request created, which has the next id of its table and the current
    time as both timestamps.  So no request changes a creation time or
    moves a row to another id. *)
Theorem rows_keep_id_and_creation_time
  (s : style) (t t' : resource) (ev : event) (w : world) (r' : row) :
  In r' (rows (table_of t' (db (snd (handler s t ev w))))) ->
  (exists r, In r (rows (table_of t' (db w)))
             /\ row_id r = row_id r' /\ created_at r = created_at r')
  \/ (row_id r' = next_id (table_of t' (db w))
      /\ created_at r' = now (db w) /\ updated_at r' = now (db w)).
Proof.
  destruct (handler_db_cases s t ev w) as [-> | (q & rs & _ & He)].
  - intros Hin. left. now exists r'.
  - now apply (execute_rows_origin q (db w) _ rs).
Qed.

(** After PUT /tasks/1 the first task still has id 1 and creation time
    100. *)
Lemma rows_keep_id_and_creation_time_witness :
  let ev := mkEvent "PUT" "/.netlify/functions/tasks/1"
                    (Denotes (JObj [("status", JStr "COMPLETED")])) in
  let r' := mkRow 1 [JNull; JNull; JNull; JStr "COMPLETED"] 100 1000 in
  (exists r, In r [ship_report; call_supplier]
             /\ row_id r = 1 /\ created_at r = 100)
  \/ (row_id r' = 3 /\ created_at r' = 1000 /\ updated_at r' = 1000).
Proof.
  intros ev r'.
  refine (rows_keep_id_and_creation_time AtLoad Tasks Tasks ev loaded r' _).
  simpl. now left.
Defined.

Lemma execute_stamped
  (q : statement) (d d' : database) (result_rows : list jsval) :
  execute q d = Some (result_rows, d') ->
  (forall t, stamped (now d) (table_of t d)) ->
  now d' = now d /\ forall t, stamped (now d) (table_of t d').
Proof.
  unfold execute. destruct (reachable d); simpl; [|discriminate].
  assert (Hset : forall t0 tb,
             stamped (now d) tb ->
             (forall t, stamped (now d) (table_of t d)) ->
             now (set_table t0 tb d) = now d
             /\ forall t, stamped (now d) (table_of t (set_table t0 tb d))).
  { intros t0 tb Htb Hd. split; [destruct t0; reflexivity|].
    intros t. destruct t, t0; simpl; auto; try apply (Hd Tenders);
      apply (Hd Tasks). }
  destruct q as [t0 | t0 values | t0 values id | t0 id].
  - intros H Hd. injection H as _ <-. auto.
  - destruct (admits d t0 values); [|discriminate].
    intros H Hd. injection H as _ <-. apply Hset; [|exact Hd].
    unfold stamped. simpl. apply Forall_app. split; [apply Hd|].
    repeat constructor; simpl; lia.
  - destruct (id_in d id) as [k|]; [|discriminate].
    destruct (admits d t0 values); [|discriminate].
    intros H Hd. injection H as _ <-. apply Hset; [|exact Hd].
    unfold stamped. simpl. rewrite Forall_map.
    eapply Forall_impl; [|apply (Hd t0)].
    intros r [H1 H2]. destruct (matches k r); simpl; lia.
  - destruct (id_in d id) as [k|]; [|discriminate].
    intros H Hd. injection H as _ <-. apply Hset; [|exact Hd].
    unfold stamped. simpl. apply Forall_forall. intros r Hin.
    apply filter_In in Hin as [Hin _].
    now apply (proj1 (Forall_forall _ _) (Hd t0)).
Qed.

(** If no row of the store is stamped later than the clock shows, and none
    has an update time before its creation time, the same is true after any
    request: an UPDATE stamps the current time on a row created no later,
    and a new row gets the current time twice. *)
Theorem timestamps_stay_ordered
  (s : style) (t : resource) (ev : event) (w : world) :
  (forall t', stamped (now (db w)) (table_of t' (db w))) ->
  forall t', stamped (now (db w)) (table_of t' (db (snd (handler s t ev w)))).
Proof.
  intros Hd.
  destruct (handler_db_cases s t ev w) as [-> | (q & rs & _ & He)];
    [exact Hd|].
  now apply (execute_stamped q (db w) _ rs).
Qed.

Lemma timestamps_stay_ordered_witness :
  let ev := mkEvent "PUT" "/.netlify/functions/tasks/1"
                    (Denotes (JObj [("status", JStr "COMPLETED")])) in
  stamped 1000 (table_of Tasks (db (snd (tasks_handler ev loaded)))).
Proof.
  intros ev.
  apply (timestamps_stay_ordered AtLoad Tasks ev loaded).
  intros [|]; repeat constructor; simpl; lia.
Defined.

(* ------------------------------------------------------------------ *)
(** ** Response headers *)

Lemma dispatch_headers (t : resource) (ev : event) (w : world) :
  headers (fst (dispatch t ev w)) = cors_headers.
Proof.
  unfold dispatch, try_scope.
  destruct (httpMethod ev =? "OPTIONS")%string; [reflexivity|].
  destruct (httpMethod ev =? "GET")%string.
  { unfold try_catch, bind, ret.
    destruct (pool_query (Select t) w) as [[rs|e] w']; reflexivity. }
  destruct (httpMethod ev =? "POST")%string.
  { destruct (body ev) as [bad|v]; [reflexivity|].
    cbv beta iota delta [try_catch bind lift ret JSON_parse].
    destruct (insert_params t v) as [params|e]; [|reflexivity].
    destruct (pool_query (Insert t params) w) as [[rs|e] w']; reflexivity. }
  destruct (httpMethod ev =? "PUT")%string.
  { destruct (present (extract_id t (path ev))) as [id|]; [|reflexivity].
    destruct (body ev) as [bad|v]; [reflexivity|].
    cbv beta iota delta [try_catch bind lift ret JSON_parse].
    destruct (update_params t v) as [params|e]; [|reflexivity].
    destruct (pool_query (Update t params id) w) as [[rs|e] w'];
      [destruct (List.length rs =? 0)%nat|]; reflexivity. }
  destruct (httpMethod ev =? "DELETE")%string; [|reflexivity].
  destruct (present (extract_id t (path ev))) as [id|]; [|reflexivity].
  unfold try_catch, bind, ret.
  destruct (pool_query (Delete t id) w) as [[rs|e] w'];
    [destruct (List.length rs =? 0)%nat|]; reflexivity.
Qed.

(** Every answer carries the four cross-origin headers (any origin, the
    Content-Type request header, the five methods, JSON content), whatever
    its status, except the two errors of the pool initialisation, which
    are 500s that carry only Access-Control-Allow-Origin and Content-Type
    and are sent only when the pool is neither there nor buildable. *)
Theorem answers_carry_cors_headers
  (s : style) (t : resource) (ev : event) (w : world) :
  headers (fst (handler s t ev w)) = cors_headers
  \/ (s = OnDemand
      /\ ready s w = false
      /\ statusCode (fst (handler s t ev w)) = 500
      /\ headers (fst (handler s t ev w)) = config_headers).
Proof.
  destruct s; simpl; [left; apply dispatch_headers|].
  unfold init_pool, new_Pool. destruct (pool w); simpl.
  - left. apply dispatch_headers.
  - destruct (no_url (DATABASE_URL w)); simpl; [right; auto|].
    destruct (Pool_throws w); simpl; [right; auto|].
    left. apply dispatch_headers.
Qed.

(* ================================================================== *)
(** * Properties of the client *)

(* ------------------------------------------------------------------ *)
(** ** URLs *)

Lemma replace_absent (pat rep s : string) :
  includes pat s = false -> replace pat rep s = s.
Proof.
  induction s as [|c s IH]; simpl; intros H;
    apply orb_false_iff in H as [Hp Hs]; rewrite Hp; [reflexivity|].
  now rewrite IH.
Qed.

Lemma startsWith_append (pat rest : string) :
  startsWith pat (pat ++ rest) = true.
Proof.
  induction pat as [|c pat IH]; simpl; [reflexivity|].
  now rewrite Ascii.eqb_refl.
Qed.

Lemma substring_from_append (pat rest : string) :
  substring_from (String.length pat) (pat ++ rest) = rest.
Proof. induction pat as [|c pat IH]; simpl; [now destruct rest | exact IH]. Qed.

Lemma replace_at_start (pat rep rest : string) :
  replace pat rep (pat ++ rest) = (rep ++ rest)%string.
Proof.
  destruct pat as [|c pat]; [now destruct rest|].
  change (replace (String c pat) rep (String c pat ++ rest))
    with (if startsWith (String c pat) (String c pat ++ rest)
          then (rep ++ substring_from (String.length (String c pat))
                                      (String c pat ++ rest))%string
          else String c (replace (String c pat) rep (pat ++ rest))).
  now rewrite startsWith_append, substring_from_append.
Qed.

Lemma includes_needs_slash (s : string) :
  occurs "/" s = false -> includes "/api" s = false.
Proof.
  induction s as [|c s IH]; [reflexivity|].
  intros H. simpl in H. apply orb_false_iff in H as [Hc Hs].
  change (includes "/api" (String c s))
    with (startsWith "/api" (String c s) || includes "/api" s).
  rewrite (IH Hs). cbn [startsWith]. rewrite Ascii.eqb_sym, Hc. reflexivity.
Qed.

Lemma append_assoc (a b c : string) :
  ((a ++ b) ++ c = a ++ b ++ c)%string.
Proof. induction a as [|x a IH]; simpl; [reflexivity | now rewrite IH]. Qed.

Lemma includes_slash (s : string) :
  includes "/api" (String "/" s) = startsWith "api" s || includes "/api" s.
Proof. reflexivity. Qed.

Lemma includes_other (c : ascii) (s : string) :
  Ascii.eqb "/" c = false ->
  includes "/api" (String c s) = includes "/api" s.
Proof.
  intros H.
  change (includes "/api" (String c s))
    with (Ascii.eqb "/" c && startsWith "api" s || includes "/api" s).
  now rewrite H.
Qed.

Lemma startsWith_api_other (c : ascii) (s : string) :
  Ascii.eqb "a" c = false -> startsWith "api" (String c s) = false.
Proof.
  intros H.
  change (startsWith "api" (String c s))
    with (Ascii.eqb "a" c && startsWith "pi" s).
  now rewrite H.
Qed.

Lemma endpoints_without_api (t : resource) (id : string) :
  occurs "/" id = false ->
  startsWith "api" id = false ->
  includes "/api" (collection t) = false
  /\ includes "/api" (item t id) = false.
Proof.
  intros Hslash Hapi. pose proof (includes_needs_slash id Hslash) as Hid.
  split; [destruct t; reflexivity|].
  destruct t; unfold item; cbn [name append];
    rewrite includes_slash, startsWith_api_other by reflexivity;
    rewrite !includes_other by reflexivity;
    rewrite includes_slash, Hapi, Hid; reflexivity.
Qed.

(** The URLs of the API methods reach the record they are about.  With
    either kind of base URL, the collection endpoint and the endpoint of an
    item are appended to the base as they are, provided the id has no
    slash and does not begin with "api"; the handler then finds no id in
    the collection URL and finds the id in the item URL (unless the id is
    the collection name). *)
Theorem client_urls_reach_the_record
  (VITE_API_URL : option string) (t : resource) (id : string) :
  occurs "/" id = false ->
  startsWith "api" id = false ->
  buildUrl VITE_API_URL (collection t)
  = (API_BASE_URL VITE_API_URL ++ "/" ++ name t)%string
  /\ buildUrl VITE_API_URL (item t id)
     = (API_BASE_URL VITE_API_URL ++ "/" ++ name t ++ "/" ++ id)%string
  /\ extract_id t (buildUrl VITE_API_URL (collection t)) = None
  /\ extract_id t (buildUrl VITE_API_URL (item t id))
     = if (id =? name t)%string then None else Some id.
Proof.
  intros Hslash Hapi.
  destruct (endpoints_without_api t id Hslash Hapi) as [Hc Hi].
  assert (H1 : buildUrl VITE_API_URL (collection t)
               = (API_BASE_URL VITE_API_URL ++ "/" ++ name t)%string).
  { unfold buildUrl. rewrite (replace_absent _ _ _ Hc).
    now destruct (isNetlifyFunctions VITE_API_URL). }
  assert (H2 : buildUrl VITE_API_URL (item t id)
               = (API_BASE_URL VITE_API_URL ++ "/" ++ name t ++ "/" ++ id)%string).
  { unfold buildUrl. rewrite (replace_absent _ _ _ Hi).
    now destruct (isNetlifyFunctions VITE_API_URL). }
  split; [exact H1|]. split; [exact H2|]. split.
  - rewrite H1, extract_id_segment by (destruct t; reflexivity).
    now rewrite String.eqb_refl.
  - rewrite H2.
    replace (API_BASE_URL VITE_API_URL ++ "/" ++ name t ++ "/" ++ id)%string
      with ((API_BASE_URL VITE_API_URL ++ "/" ++ name t) ++ "/" ++ id)%string.
    + now apply extract_id_segment.
    + rewrite append_assoc.
      change ("/" ++ name t)%string with (String "/" (name t)).
      reflexivity.
Qed.

(** Task 17 behind functions hosted by the platform, and on the local
    server. *)
Lemma client_urls_reach_the_record_witness :
  buildUrl (Some "https://elsport.example/.netlify/functions") (item Tasks "17")
  = "https://elsport.example/.netlify/functions/tasks/17"%string
  /\ extract_id Tasks (buildUrl None (item Tasks "17")) = Some "17"%string.
Proof.
  destruct (client_urls_reach_the_record
              (Some "https://elsport.example/.netlify/functions")
              Tasks "17" eq_refl eq_refl) as (_ & Hurl & _).
  destruct (client_urls_reach_the_record None Tasks "17" eq_refl eq_refl)
    as (_ & _ & _ & Hid).
  split; [exact Hurl | exact Hid].
Defined.

(** What [buildUrl] does with "/api".  With a base URL that names the
    platform's functions, the first "/api" of the endpoint is dropped: an
    endpoint that begins with it loses it, so does an item whose id begins
    with "api" (the request then carries another id, or none), and an
    endpoint without it is kept whole.  With any other base URL the
    endpoint is appended as it is. *)
Theorem buildUrl_drops_first_api
  (VITE_API_URL : option string) (t : resource) (rest endpoint : string) :
  (isNetlifyFunctions VITE_API_URL = true ->
   buildUrl VITE_API_URL ("/api" ++ rest)
   = (API_BASE_URL VITE_API_URL ++ rest)%string
   /\ buildUrl VITE_API_URL (item t ("api" ++ rest))
      = (API_BASE_URL VITE_API_URL ++ "/" ++ name t ++ rest)%string
   /\ (includes "/api" endpoint = false ->
       buildUrl VITE_API_URL endpoint
       = (API_BASE_URL VITE_API_URL ++ endpoint)%string))
  /\ (isNetlifyFunctions VITE_API_URL = false ->
      buildUrl VITE_API_URL endpoint
      = (API_BASE_URL VITE_API_URL ++ endpoint)%string).
Proof.
  unfold buildUrl. split; intros ->; [|reflexivity].
  split; [|split].
  - now rewrite (replace_at_start "/api" "" rest).
  - destruct t; reflexivity.
  - intros H. now rewrite (replace_absent _ _ _ H).
Qed.

Lemma buildUrl_drops_first_api_witness :
  let hosted := Some "/.netlify/functions"%string in
  buildUrl hosted "/api/tenders" = "/.netlify/functions/tenders"%string
  /\ buildUrl hosted (item Tenders "api7") = "/.netlify/functions/tenders7"%string
  /\ buildUrl None "/api/tenders" = "http://localhost:3001/api/api/tenders"%string.
Proof.
  intros hosted.
  destruct (buildUrl_drops_first_api hosted Tenders "/tenders" "")
    as [Hhosted _].
  destruct (Hhosted eq_refl) as (H1 & _).
  destruct (buildUrl_drops_first_api hosted Tenders "7" "") as [Hhosted' _].
  destruct (Hhosted' eq_refl) as (_ & H2 & _).
  destruct (buildUrl_drops_first_api None Tenders "" "/api/tenders")
    as [_ Hlocal].
  split; [exact H1|]. split; [exact H2 | exact (Hlocal eq_refl)].
Defined.

(* ------------------------------------------------------------------ *)
(** ** Failures, from the handler to the caller *)

Lemma dispatch_answer_shape (t : resource) (ev : event) (w : world) :
  statusCode (fst (dispatch t ev w)) = 200
  \/ statusCode (fst (dispatch t ev w)) = 201
  \/ exists m,
       responseBody (fst (dispatch t ev w)) = error_body m
       /\ (m =? "")%string = false
       /\ In (statusCode (fst (dispatch t ev w))) [400; 404; 405; 500].
Proof.
  assert (Herr : forall code m (w' : world),
             (m =? "")%string = false -> In code [400; 404; 405; 500] ->
             let r := fst (respond code (error_body m), w') in
             statusCode r = 200 \/ statusCode r = 201
             \/ exists m', responseBody r = error_body m'
                           /\ (m' =? "")%string = false
                           /\ In (statusCode r) [400; 404; 405; 500]).
  { intros code m w' Hm Hc. right. right. now exists m. }
  assert (Hnf : (not_found t =? "")%string = false) by (destruct t; reflexivity).
  unfold dispatch, try_scope.
  destruct (httpMethod ev =? "OPTIONS")%string; [now left|].
  destruct (httpMethod ev =? "GET")%string.
  { unfold try_catch, bind, ret.
    destruct (pool_query (Select t) w) as [[rs|e] w']; [now left|].
    apply Herr; simpl; tauto. }
  destruct (httpMethod ev =? "POST")%string.
  { destruct (body ev) as [bad|v]; [apply Herr; simpl; tauto|].
    cbv beta iota delta [try_catch bind lift ret JSON_parse].
    destruct (insert_params t v) as [params|e]; [|apply Herr; simpl; tauto].
    destruct (pool_query (Insert t params) w) as [[rs|e] w'];
      [right; now left | apply Herr; simpl; tauto]. }
  destruct (httpMethod ev =? "PUT")%string.
  { destruct (present (extract_id t (path ev))) as [id|];
      [|apply Herr; simpl; tauto].
    destruct (body ev) as [bad|v]; [apply Herr; simpl; tauto|].
    cbv beta iota delta [try_catch bind lift ret JSON_parse].
    destruct (update_params t v) as [params|e]; [|apply Herr; simpl; tauto].
    destruct (pool_query (Update t params id) w) as [[rs|e] w'];
      [destruct (List.length rs =? 0)%nat|];
      [apply Herr; simpl; tauto | now left | apply Herr; simpl; tauto]. }
  destruct (httpMethod ev =? "DELETE")%string; [|apply Herr; simpl; tauto].
  destruct (present (extract_id t (path ev))) as [id|];
    [|apply Herr; simpl; tauto].
  unfold try_catch, bind, ret.
  destruct (pool_query (Delete t id) w) as [[rs|e] w'];
    [destruct (List.length rs =? 0)%nat|];
    [apply Herr; simpl; tauto | now left | apply Herr; simpl; tauto].
Qed.

Lemma handler_answer_shape
  (s : style) (t : resource) (ev : event) (w : world) :
  statusCode (fst (handler s t ev w)) = 200
  \/ statusCode (fst (handler s t ev w)) = 201
  \/ exists m,
       responseBody (fst (handler s t ev w)) = error_body m
       /\ (m =? "")%string = false
       /\ In (statusCode (fst (handler s t ev w))) [400; 404; 405; 500].
Proof.
  destruct s; simpl; [apply dispatch_answer_shape|].
  unfold init_pool, new_Pool. destruct (pool w); simpl.
  - apply dispatch_answer_shape.
  - destruct (no_url (DATABASE_URL w)); simpl.
    { right. right. eexists. repeat split; simpl; tauto. }
    destruct (Pool_throws w); simpl.
    { right. right. eexists. repeat split; simpl; tauto. }
    apply dispatch_answer_shape.
Qed.

(** Every answer has status 200 or 201, or it is an error: status 400,
    404, 405 or 500, and as body the JSON of an object whose one property,
    [error], is a non-empty message. *)
Theorem answers_are_success_or_error_message
  (s : style) (t : resource) (ev : event) (w : world) :
  statusCode (fst (handler s t ev w)) = 200
  \/ statusCode (fst (handler s t ev w)) = 201
  \/ exists m,
       responseBody (fst (handler s t ev w)) = error_body m
       /\ (m =? "")%string = false
       /\ In (statusCode (fst (handler s t ev w))) [400; 404; 405; 500].
Proof. apply handler_answer_shape. Qed.

Lemma fetchAPI_on_error
  (fetch : Request -> promise Response) (VITE_API_URL : option string)
  (endpoint : string) (options : RequestInit) (code : Z) (m : string) :
  fetch (mkRequest (buildUrl VITE_API_URL endpoint)
                   [("Content-Type", "application/json")] options)
  = Fulfilled (mkHttpResponse code (Denotes (JObj [("error", JStr m)]))) ->
  In code [400; 404; 405; 500] ->
  (m =? "")%string = false ->
  fetchAPI fetch VITE_API_URL endpoint options = Rejected (Error (JStr m)).
Proof.
  intros Hfetch Hcode Hm. unfold fetchAPI. rewrite Hfetch.
  assert (Hok : ok (mkHttpResponse code (Denotes (JObj [("error", JStr m)])))
                = false).
  { unfold ok. simpl status.
    destruct Hcode as [<-|[<-|[<-|[<-|[]]]]]; reflexivity. }
  rewrite Hok. simpl. unfold js_or. simpl. now rewrite Hm.
Qed.

(** Whatever request [fetchAPI] sends to a handler, an answer that is not
    a 200 or a 201 reaches the caller as a rejection with
    [new Error(message)], where the message is the one the handler put in
    its answer. *)
Theorem handler_errors_reach_the_caller
  (toISOString : Z -> string)
  (s : style) (t : resource) (w : world)
  (VITE_API_URL : option string) (endpoint : string) (options : RequestInit) :
  let req := mkRequest (buildUrl VITE_API_URL endpoint)
                       [("Content-Type", "application/json")] options in
  let answer := fst (handler s t (event_of toISOString req) w) in
  statusCode answer <> 200 ->
  statusCode answer <> 201 ->
  exists m,
    responseBody answer = error_body m
    /\ fetchAPI (served toISOString s t w) VITE_API_URL endpoint options
       = Rejected (Error (JStr m)).
Proof.
  intros req answer H200 H201.
  destruct (handler_answer_shape s t (event_of toISOString req) w)
    as [H | [H | (m & Hbody & Hm & Hcode)]]; [contradiction..|].
  exists m. split; [exact Hbody|].
  apply fetchAPI_on_error with (code := statusCode answer);
    [|exact Hcode | exact Hm].
  subst answer req. unfold served, deliver. now rewrite Hbody.
Qed.

(** [taskAPI.update] of a task that is not there. *)
Lemma handler_errors_reach_the_caller_witness :
  update (served (fun _ => "1970-01-01T00:00:01.000Z"%string) AtLoad Tasks loaded)
         (Some "/.netlify/functions"%string) Tasks "42"
         (JObj [("description", JStr "Ship report");
                ("assignedTo", JStr "Alex");
                ("dueDate", JStr "2025-03-01");
                ("status", JStr "SENT")])
  = Rejected (Error (JStr "Task not found")).
Proof.
  destruct (handler_errors_reach_the_caller
              (fun _ => "1970-01-01T00:00:01.000Z"%string) AtLoad Tasks loaded
              (Some "/.netlify/functions"%string) (item Tasks "42")
              (mkInit (Some "PUT"%string)
                      (Some (JSON_stringify
                               (JObj [("description", JStr "Ship report");
                                      ("assigned_to", JStr "Alex");
                                      ("due_date", JStr "2025-03-01");
                                      ("status", JStr "SENT")])))))
    as (m & Hbody & Hrejected); [discriminate..|].
  vm_compute in Hbody. injection Hbody as <-. exact Hrejected.
Defined.

(* ------------------------------------------------------------------ *)
(** ** A task, from the form to the list *)

(** [taskAPI.create] of a form whose four fields are strings, against a
    tasks handler whose store accepts the values, is fulfilled with the
    new row, and [transformTask] makes of it the record the component puts
    in its list: the description, the assignee and the due date of the
    form, the status of the form or "PENDING" if that is empty, the row's
    id, and the creation time as an ISO string. *)
Theorem created_task_as_shown
  (toISOString : Z -> string) (s : style) (w : world)
  (VITE_API_URL : option string)
  (form : list (string * jsval)) (d a dd st : string) :
  lookup "description" form = JStr d ->
  lookup "assignedTo" form = JStr a ->
  lookup "dueDate" form = JStr dd ->
  lookup "status" form = JStr st ->
  ready s w = true ->
  reachable (db w) = true ->
  admits (db w) Tasks
         [JStr d; JStr a; JStr dd;
          JStr (if (st =? "")%string then "PENDING" else st)] = true ->
  exists dbTask,
    create (served toISOString s Tasks w) VITE_API_URL Tasks (JObj form)
    = Fulfilled dbTask
    /\ transformTask dbTask
       = Ok (JObj [("id", JNum (next_id (tasks (db w))));
                   ("description", JStr d);
                   ("assignedTo", JStr a);
                   ("dueDate", JStr dd);
                   ("status", JStr (if (st =? "")%string then "PENDING" else st));
                   ("createdAt", JStr (toISOString (now (db w))))]).
Proof.
  intros Hd Ha Hdd Hst Hready Hreach Hadm.
  set (payload := JObj [("description", JStr d); ("assigned_to", JStr a);
                        ("due_date", JStr dd); ("status", JStr st)]).
  set (ev := mkEvent "POST" (buildUrl VITE_API_URL (collection Tasks))
                     (Denotes payload)).
  assert (Hor : js_or (JStr st) (JStr "PENDING")
                = JStr (if (st =? "")%string then "PENDING" else st))
    by (unfold js_or; simpl; now destruct (st =? "")%string).
  pose proof (post_task_run s ev w payload (JStr st)
                eq_refl eq_refl eq_refl Hready Hreach) as Hrun.
  cbv zeta in Hrun. change (prop payload "description") with (JStr d) in Hrun.
  change (prop payload "assigned_to") with (JStr a) in Hrun.
  change (prop payload "due_date") with (JStr dd) in Hrun.
  rewrite Hor in Hrun. destruct (Hrun Hadm) as (Hresp & _).
  eexists. split.
  - unfold create, request_body, task_body, get.
    rewrite Hd, Ha, Hdd, Hst.
    unfold fetchAPI, served.
    change (event_of toISOString _) with ev.
    rewrite Hresp. reflexivity.
  - reflexivity.
Qed.

(** The scenario of a new task saved with the status left empty. *)
Lemma created_task_as_shown_witness :
  exists dbTask,
    create (served (fun _ => "1970-01-01T00:00:01.000Z"%string)
                   AtLoad Tasks loaded)
           None Tasks
           (JObj [("description", JStr "Order signs");
                  ("assignedTo", JStr "Sam");
                  ("dueDate", JStr "2025-05-02");
                  ("status", JStr "")])
    = Fulfilled dbTask
    /\ transformTask dbTask
       = Ok (JObj [("id", JNum 3);
                   ("description", JStr "Order signs");
                   ("assignedTo", JStr "Sam");
                   ("dueDate", JStr "2025-05-02");
                   ("status", JStr "PENDING");
                   ("createdAt", JStr "1970-01-01T00:00:01.000Z")]).
Proof.
  exact (created_task_as_shown (fun _ => "1970-01-01T00:00:01.000Z"%string)
           AtLoad loaded None
           [("description", JStr "Order signs");
            ("assignedTo", JStr "Sam");
            ("dueDate", JStr "2025-05-02");
            ("status", JStr "")]
           "Order signs" "Sam" "2025-05-02" ""
           eq_refl eq_refl eq_refl eq_refl eq_refl eq_refl eq_refl).
Defined.

(* ================================================================== *)
(** * Properties of the site-visit form *)

(* ------------------------------------------------------------------ *)
(** ** Trimming *)

Lemma trimStart_empty (s : ustring) :
  trimStart s = [] <-> forallb is_space s = true.
Proof.
  induction s as [|c s IH]; simpl; [tauto|].
  destruct (is_space c); simpl; [exact IH|].
  split; discriminate.
Qed.

Lemma trimStart_head (s : ustring) (c : N) (rest : ustring) :
  trimStart s = c :: rest -> is_space c = false.
Proof.
  induction s as [|x s IH]; simpl; [discriminate|].
  destruct (is_space x) eqn:E; [exact IH|].
  intros H. injection H as <- _. exact E.
Qed.

Lemma trimStart_last (s : ustring) (d : N) :
  trimStart s <> [] -> last (trimStart s) d = last s d.
Proof.
  induction s as [|x s IH]; simpl; [contradiction|].
  destruct (is_space x); [|reflexivity].
  intros H. rewrite (IH H).
  destruct s; [simpl in H; contradiction | reflexivity].
Qed.

Lemma trimStart_In (s : ustring) (c : N) : In c (trimStart s) -> In c s.
Proof.
  induction s as [|x s IH]; simpl; [tauto|].
  destruct (is_space x); [right; now apply IH | tauto].
Qed.

Lemma trim_In (s : ustring) (c : N) : In c (trim s) -> In c s.
Proof.
  unfold trim. intros H. apply in_rev, trimStart_In, in_rev in H.
  now apply trimStart_In.
Qed.

Lemma forallb_rev (f : N -> bool) (s : ustring) :
  forallb f (rev s) = forallb f s.
Proof.
  induction s as [|c s IH]; simpl; [reflexivity|].
  rewrite forallb_app, IH. simpl. rewrite andb_true_r. apply andb_comm.
Qed.

(** [s.trim() === ''] exactly when [s] is all white space. *)
Lemma trim_empty (s : ustring) :
  is_empty (trim s) = forallb is_space s.
Proof.
  unfold trim.
  destruct (trimStart s) as [|c rest] eqn:E.
  - simpl. symmetry. now apply trimStart_empty.
  - assert (Hs : forallb is_space s = false).
    { destruct (forallb is_space s) eqn:F; [|reflexivity].
      apply trimStart_empty in F. congruence. }
    rewrite Hs.
    destruct (trimStart (rev (c :: rest))) as [|x l] eqn:F.
    + apply trimStart_empty in F. rewrite forallb_rev in F.
      simpl in F. rewrite (trimStart_head _ _ _ E) in F. discriminate.
    + destruct (rev (x :: l)) eqn:G; [|reflexivity].
      apply (f_equal (@rev N)) in G. rewrite rev_involutive in G.
      discriminate.
Qed.

Lemma trim_skips_space (c : N) (s : ustring) :
  is_space c = true -> trim (c :: s) = trim s.
Proof. intros H. unfold trim. simpl. now rewrite H. Qed.

Lemma last_rev_head (s : ustring) (c d : N) : last (rev (c :: s)) d = c.
Proof. simpl. apply last_last. Qed.

(** What [trim] gives is trimmed. *)
Lemma trim_trimmed (s : ustring) : trimmed (trim s).
Proof.
  unfold trim.
  destruct (trimStart s) as [|c rest] eqn:E; [exact I|].
  pose proof (trimStart_head _ _ _ E) as Hc.
  destruct (trimStart (rev (c :: rest))) as [|x l] eqn:F; [exact I|].
  pose proof (trimStart_head _ _ _ F) as Hx.
  assert (Hlast : last (x :: l) c = c).
  { rewrite <- F, trimStart_last by (rewrite F; discriminate).
    apply last_rev_head. }
  assert (Hhd : exists l', rev (x :: l) = c :: l').
  { destruct (rev (x :: l)) as [|y l'] eqn:G.
    - apply (f_equal (@rev N)) in G. rewrite rev_involutive in G.
      discriminate.
    - exists l'. f_equal.
      apply (f_equal (@rev N)) in G. rewrite rev_involutive in G.
      rewrite G in Hlast. simpl in Hlast. rewrite last_last in Hlast.
      exact Hlast. }
  destruct Hhd as [l' Hl']. rewrite Hl'. unfold trimmed. split; [exact Hc|].
  rewrite <- Hl'.
  replace (last (rev (x :: l)) c) with x; [exact Hx|].
  symmetry. apply last_rev_head.
Qed.

(** A trimmed text is left as it is. *)
Lemma trim_of_trimmed (s : ustring) : trimmed s -> trim s = s.
Proof.
  destruct s as [|c s]; [reflexivity|].
  intros [Hc Hlast]. unfold trim.
  assert (H1 : trimStart (c :: s) = c :: s) by (simpl; now rewrite Hc).
  rewrite H1.
  destruct (rev (c :: s)) as [|y l] eqn:G.
  - apply (f_equal (@rev N)) in G. rewrite rev_involutive in G. discriminate.
  - assert (Hy : y = last (c :: s) c).
    { apply (f_equal (@rev N)) in G. rewrite rev_involutive in G.
      rewrite G. simpl. now rewrite last_last. }
    simpl. rewrite Hy, Hlast. rewrite <- Hy, <- G. apply rev_involutive.
Qed.

(* ------------------------------------------------------------------ *)
(** ** Splitting and joining *)

Lemma usplit_nonempty (sep : N) (s : ustring) : usplit sep s <> [].
Proof.
  destruct s as [|c s]; simpl; [discriminate|].
  destruct (c =? sep)%N; [discriminate|].
  destruct (usplit sep s); discriminate.
Qed.

Lemma usplit_whole (sep : N) (s : ustring) :
  ~ In sep s -> usplit sep s = [s].
Proof.
  induction s as [|c s IH]; simpl; [reflexivity|].
  intros H. destruct (N.eqb_spec c sep) as [->|Hne]; [tauto|].
  rewrite IH by tauto. reflexivity.
Qed.

Lemma usplit_app (sep : N) (a b : ustring) :
  ~ In sep a -> usplit sep (a ++ sep :: b) = a :: usplit sep b.
Proof.
  induction a as [|c a IH]; simpl; intros H.
  - now rewrite N.eqb_refl.
  - destruct (N.eqb_spec c sep) as [->|Hne]; [tauto|].
    rewrite IH by tauto. reflexivity.
Qed.

Lemma usplit_parts (sep : N) (s part : ustring) :
  In part (usplit sep s) -> ~ In sep part.
Proof.
  revert part. induction s as [|c s IH]; simpl; intros part.
  - intros [<-|[]] [].
  - destruct (N.eqb_spec c sep) as [->|Hne].
    + intros [<-|H]; [intros [] | now apply IH].
    + destruct (usplit sep s) as [|p ps] eqn:E.
      * intros [<-|[]] [H|[]]. now apply Hne.
      * intros [<-|H].
        -- intros [H|H]; [now apply Hne|]. apply (IH p); [now left | exact H].
        -- apply IH. now right.
Qed.

Lemma map_trim_after_space (s : ustring) :
  map trim (usplit semicolon (32%N :: s)) = map trim (usplit semicolon s).
Proof.
  simpl. pose proof (usplit_nonempty semicolon s) as Hne.
  destruct (usplit semicolon s) as [|part parts]; [contradiction|].
  simpl. now rewrite trim_skips_space.
Qed.

(** Splitting what was joined gives the joined texts back, up to their
    surrounding white space, when none of them has a semicolon. *)
Lemma split_of_join (visits : list ustring) :
  visits <> [] ->
  Forall (fun visit => ~ In semicolon visit) visits ->
  map trim (usplit semicolon (join (units "; ") visits)) = map trim visits.
Proof.
  intros Hne Hall. induction Hall as [|x rest Hx Hrest IH]; [contradiction|].
  destruct rest as [|y rest].
  - simpl. now rewrite usplit_whole.
  - change (join (units "; ") (x :: y :: rest))
      with (x ++ semicolon :: 32%N :: join (units "; ") (y :: rest)).
    rewrite usplit_app by exact Hx.
    rewrite map_cons, map_trim_after_space, IH by discriminate.
    reflexivity.
Qed.

Lemma kept_visits_nonblank (inputs : list ustring) :
  Forall (fun visit => is_empty (trim visit) = false) (kept_visits inputs).
Proof.
  apply Forall_forall. intros v Hin. apply filter_In in Hin as [_ H].
  now apply negb_true_iff.
Qed.

Lemma filter_nonempty_all (visits : list ustring) :
  Forall (fun visit => is_empty visit = false) visits ->
  filter (fun visit => negb (is_empty visit)) visits = visits.
Proof.
  induction 1 as [|x rest Hx Hrest IH]; simpl; [reflexivity|].
  now rewrite Hx, IH.
Qed.

Lemma join_not_blank (x : ustring) (rest : list ustring) :
  forallb is_space x = false ->
  forallb is_space (join (units "; ") (x :: rest)) = false.
Proof.
  intros H. destruct rest; [exact H|].
  change (join (units "; ") (x :: u :: rest))
    with (x ++ units "; " ++ join (units "; ") (u :: rest)).
  now rewrite forallb_app, H.
Qed.

(** What is saved from the inputs comes back as the non-blank inputs,
    trimmed, both in the list of the tender (one tag each) and, when the
    tender is edited again, as its inputs, provided no input has a
    semicolon.  With no non-blank input the saved text is empty, nothing is
    shown and the form opens with one empty input. *)
Theorem visits_survive_save_and_edit (inputs : list ustring) :
  Forall (fun visit => ~ In semicolon visit) inputs ->
  shown_visits (joined_visits inputs) = map trim (kept_visits inputs)
  /\ inputs_of (Some (joined_visits inputs))
     = match kept_visits inputs with
       | [] => [[]]
       | _ :: _ => map trim (kept_visits inputs)
       end.
Proof.
  intros Hall.
  assert (Hkept : Forall (fun visit => ~ In semicolon visit) (kept_visits inputs)).
  { apply Forall_forall. intros v Hin. apply filter_In in Hin as [Hin _].
    now apply (proj1 (Forall_forall _ _) Hall). }
  pose proof (kept_visits_nonblank inputs) as Hnb.
  unfold shown_visits, inputs_of, joined_visits. fold (kept_visits inputs).
  destruct (kept_visits inputs) as [|x rest] eqn:E; [split; reflexivity|].
  rewrite split_of_join by (discriminate || exact Hkept).
  split.
  - apply filter_nonempty_all. now apply Forall_map.
  - assert (Hx : forallb is_space x = false).
    { inversion Hnb as [|? ? H _]; subst. now rewrite <- trim_empty. }
    pose proof (join_not_blank x rest Hx) as Hj.
    rewrite trim_empty, Hj.
    destruct (join (units "; ") (x :: rest)); [discriminate | reflexivity].
Qed.

(** Two visits and a blank input between them. *)
Lemma visits_survive_save_and_edit_witness :
  let inputs := [units " 15/01/2025"; units "  "; units "22/01/2025 "] in
  joined_visits inputs = units " 15/01/2025; 22/01/2025 "
  /\ shown_visits (joined_visits inputs)
     = [units "15/01/2025"; units "22/01/2025"]
  /\ inputs_of (Some (joined_visits inputs))
     = [units "15/01/2025"; units "22/01/2025"].
Proof.
  intros inputs.
  assert (H : Forall (fun visit => ~ In semicolon visit) inputs).
  { repeat constructor; vm_compute; intuition discriminate. }
  destruct (visits_survive_save_and_edit inputs H) as [Hshown Hedit].
  split; [reflexivity|]. split; [exact Hshown | exact Hedit].
Defined.

Lemma shown_visits_are_clean_aux (siteVisits visit : ustring) :
  In visit (shown_visits siteVisits) ->
  visit <> [] /\ ~ In semicolon visit /\ trimmed visit.
Proof.
  unfold shown_visits. intros H. apply filter_In in H as [Hin Hne].
  apply in_map_iff in Hin as (part & <- & Hpart).
  split; [|split].
  - intros E. rewrite E in Hne. discriminate.
  - intros Hs. apply trim_In in Hs. now apply (usplit_parts _ _ _ Hpart).
  - apply trim_trimmed.
Qed.

(** Whatever text a tender has as its site visits, every visit shown is
    non-empty, has no semicolon and no white space at either end. *)
Theorem shown_visits_are_clean (siteVisits visit : ustring) :
  In visit (shown_visits siteVisits) ->
  visit <> [] /\ ~ In semicolon visit /\ trimmed visit.
Proof. apply shown_visits_are_clean_aux. Qed.

Lemma shown_visits_are_clean_witness :
  let visit := units "16/01/2025" in
  visit <> [] /\ ~ In semicolon visit /\ trimmed visit.
Proof.
  intros visit.
  apply (shown_visits_are_clean (units " 15/01/2025;  ; 16/01/2025 ;")).
  vm_compute. tauto.
Defined.

(* ------------------------------------------------------------------ *)
(** ** A semicolon inside a visit *)

Lemma usplit_length (sep : N) (s : ustring) :
  List.length (usplit sep s) = S (count_occ N.eq_dec s sep).
Proof.
  induction s as [|c s IH]; simpl; [reflexivity|].
  destruct (N.eqb_spec c sep) as [->|Hne].
  - destruct (N.eq_dec sep sep); [|contradiction]. simpl. now rewrite IH.
  - destruct (N.eq_dec c sep); [contradiction|].
    pose proof (usplit_nonempty sep s) as Hn.
    destruct (usplit sep s); [contradiction|]. exact IH.
Qed.

Lemma join_semicolons (visits : list ustring) :
  visits <> [] ->
  S (count_occ N.eq_dec (join (units "; ") visits) semicolon)
  = (List.length visits
     + list_sum (map (fun visit => count_occ N.eq_dec visit semicolon) visits))%nat.
Proof.
  induction visits as [|x rest IH]; [contradiction|]. intros _.
  destruct rest as [|y rest].
  - simpl. lia.
  - change (join (units "; ") (x :: y :: rest))
      with (x ++ semicolon :: 32%N :: join (units "; ") (y :: rest)).
    rewrite count_occ_app. cbn [count_occ].
    destruct (N.eq_dec semicolon semicolon); [|contradiction].
    destruct (N.eq_dec 32%N semicolon); [discriminate|].
    specialize (IH ltac:(discriminate)).
    assert (Hsum : forall a l, list_sum (a :: l) = (a + list_sum l)%nat)
      by reflexivity.
    cbn [List.length map] in *. rewrite !Hsum in *. lia.
Qed.

(** A semicolon typed into a visit splits it: when the tender is edited
    again, there is one input for each non-blank input that was saved and
    one more for each semicolon in them. *)
Theorem semicolon_splits_a_visit (inputs : list ustring) :
  kept_visits inputs <> [] ->
  List.length (inputs_of (Some (joined_visits inputs)))
  = (List.length (kept_visits inputs)
     + list_sum (map (fun visit => count_occ N.eq_dec visit semicolon)
                     (kept_visits inputs)))%nat.
Proof.
  intros Hne. unfold inputs_of, joined_visits. fold (kept_visits inputs).
  destruct (kept_visits inputs) as [|x rest] eqn:E; [contradiction|].
  assert (Hx : forallb is_space x = false).
  { pose proof (kept_visits_nonblank inputs) as Hnb. rewrite E in Hnb.
    inversion Hnb as [|? ? H _]; subst. now rewrite <- trim_empty. }
  pose proof (join_not_blank x rest Hx) as Hj.
  assert (Hfull : is_empty (join (units "; ") (x :: rest)) = false)
    by (destruct (join (units "; ") (x :: rest)); [discriminate | reflexivity]).
  rewrite Hfull, trim_empty, Hj. cbn [negb andb].
  rewrite length_map, usplit_length. now apply join_semicolons.
Qed.

(** One input with two dates and a semicolon between them comes back as
    two inputs. *)
Lemma semicolon_splits_a_visit_witness :
  inputs_of (Some (joined_visits [units "15/01/2025;22/01/2025"]))
  = [units "15/01/2025"; units "22/01/2025"]
  /\ List.length (inputs_of (Some (joined_visits [units "15/01/2025;22/01/2025"])))
     = 2%nat.
Proof.
  split; [reflexivity|].
  refine (semicolon_splits_a_visit [units "15/01/2025;22/01/2025"] _).
  vm_compute. discriminate.
Defined.

(* ------------------------------------------------------------------ *)
(** ** The inputs of the form *)

Lemma with_index_length (index : nat) (value : ustring) (a : list ustring) :
  List.length (with_index index value a) = List.length a.
Proof.
  revert index. induction a as [|x a IH]; intros [|i]; simpl; auto.
Qed.

Lemma without_index_length (index : nat) (a : list ustring) :
  (List.length a <= S (List.length (without_index index a)))%nat.
Proof.
  revert index. induction a as [|x a IH]; intros [|i]; simpl; auto.
  specialize (IH i). lia.
Qed.

Lemma without_index_beyond (index : nat) (a : list ustring) :
  (List.length a <= index)%nat -> without_index index a = a.
Proof.
  revert index. induction a as [|x a IH]; intros [|i]; simpl; auto.
  - lia.
  - intros H. rewrite IH by lia. reflexivity.
Qed.

(** The form always has at least one site-visit input: resetting and
    editing give at least one, and adding, changing and removing keep at
    least one.  Removing does nothing when there is one input only, and
    removing at an index past the end removes no input. *)
Theorem form_keeps_an_input (f : visits_form) :
  siteVisitInputs f <> [] ->
  siteVisitInputs (_resetForm f) <> []
  /\ (forall siteVisits, siteVisitInputs (_editTender siteVisits) <> [])
  /\ siteVisitInputs (_addSiteVisit f) <> []
  /\ (forall index value wasCompleted,
         siteVisitInputs (_updateSiteVisit index value wasCompleted f) <> [])
  /\ (forall index, siteVisitInputs (_removeSiteVisit index f) <> [])
  /\ (forall index, List.length (siteVisitInputs f) = 1%nat ->
                    _removeSiteVisit index f = f)
  /\ (forall index, (List.length (siteVisitInputs f) <= index)%nat ->
                    siteVisitInputs (_removeSiteVisit index f)
                    = siteVisitInputs f).
Proof.
  intros Hne. split; [discriminate|]. split; [|split; [|split; [|split; [|split]]]].
  - intros [text|]; simpl; [|discriminate].
    destruct (negb (is_empty text) && negb (is_empty (trim text)));
      [|discriminate].
    pose proof (usplit_nonempty semicolon text) as H.
    destruct (usplit semicolon text); [contradiction | discriminate].
  - simpl. destruct (siteVisitInputs f); discriminate.
  - intros index value wasCompleted. simpl. intros E.
    apply (f_equal (@List.length ustring)) in E.
    rewrite with_index_length in E.
    destruct (siteVisitInputs f); [contradiction | discriminate].
  - intros index. unfold _removeSiteVisit.
    destruct (1 <? List.length (siteVisitInputs f))%nat eqn:E; [|exact Hne].
    apply Nat.ltb_lt in E. simpl. intros H.
    pose proof (without_index_length index (siteVisitInputs f)) as Hl.
    rewrite H in Hl. simpl in Hl. lia.
  - intros index H. unfold _removeSiteVisit. rewrite H. reflexivity.
  - intros index H. unfold _removeSiteVisit.
    destruct (1 <? List.length (siteVisitInputs f))%nat; [|reflexivity].
    simpl. now apply without_index_beyond.
Qed.

Lemma form_keeps_an_input_witness :
  let f := mkVisitsForm [units "15/01/2025"] (units "15/01/2025") in
  _removeSiteVisit 0 f = f
  /\ siteVisitInputs (_removeSiteVisit 0 (_addSiteVisit f)) = [[]].
Proof.
  intros f.
  assert (Hne : siteVisitInputs f <> []) by discriminate.
  destruct (form_keeps_an_input f Hne) as (_ & _ & _ & _ & _ & Hone & _).
  split; [exact (Hone 0%nat eq_refl) | reflexivity].
Defined.

(* ------------------------------------------------------------------ *)
(** ** Marking a visit as done *)

Lemma assign_in_range (index : nat) (value : ustring) (a : list ustring) :
  (index < List.length a)%nat -> assign index value a = with_index index value a.
Proof.
  revert index. induction a as [|x a IH]; intros [|i]; simpl; try lia; auto.
  intros H. rewrite IH by lia. reflexivity.
Qed.

Lemma with_index_Forall
  (P : ustring -> Prop) (index : nat) (value : ustring) (a : list ustring) :
  Forall P a -> P value -> Forall P (with_index index value a).
Proof.
  intros Ha Hv. revert index.
  induction Ha as [|x a Hx Ha IH]; intros [|i]; simpl; auto.
Qed.

Lemma with_index_twice (index : nat) (u v : ustring) (a : list ustring) :
  with_index index v (with_index index u a) = with_index index v a.
Proof.
  revert index. induction a as [|x a IH]; intros [|i]; simpl; auto.
  now rewrite IH.
Qed.

Lemma with_index_same (index : nat) (v : ustring) (a : list ustring) :
  nth_error a index = Some v -> with_index index v a = a.
Proof.
  revert index. induction a as [|x a IH]; intros [|i]; simpl; try discriminate.
  - intros H. now injection H as ->.
  - intros H. now rewrite IH.
Qed.

Lemma with_index_nth (index : nat) (v : ustring) (a : list ustring) :
  (index < List.length a)%nat -> nth_error (with_index index v a) index = Some v.
Proof.
  revert index. induction a as [|x a IH]; intros [|i]; simpl; try lia; auto.
  intros H. apply IH. lia.
Qed.

Lemma map_trim_trimmed (a : list ustring) :
  Forall trimmed a -> map trim a = a.
Proof.
  induction 1 as [|x a Hx Ha IH]; simpl; [reflexivity|].
  now rewrite trim_of_trimmed, IH.
Qed.

Lemma last_default (s : ustring) (d d' : N) :
  s <> [] -> last s d = last s d'.
Proof.
  induction s as [|c s IH]; [contradiction|]. intros _.
  destruct s as [|c' s]; [reflexivity|].
  change (last (c' :: s) d = last (c' :: s) d'). now apply IH.
Qed.

Lemma toggle_trimmed (visit : ustring) :
  visit <> [] -> trimmed visit -> trimmed (toggle visit).
Proof.
  intros Hne Ht. unfold toggle.
  destruct (isCompleted visit); [apply trim_trimmed|].
  destruct visit as [|c rest]; [contradiction|].
  destruct Ht as [_ Hlast]. split; [reflexivity|].
  change (last (check_mark :: c :: rest) check_mark)
    with (last (c :: rest) check_mark).
  rewrite (last_default (c :: rest) check_mark c) by discriminate.
  exact Hlast.
Qed.

Lemma toggle_no_semicolon (visit : ustring) :
  ~ In semicolon visit -> ~ In semicolon (toggle visit).
Proof.
  intros H. unfold toggle. destruct (isCompleted visit).
  - intros Hin. apply trim_In in Hin.
    destruct visit; [exact Hin | apply H; now right].
  - intros [E|Hin]; [discriminate | now apply H].
Qed.

(** The visits shown for a joined list of clean visits are those
    visits. *)
Lemma shown_of_joined (visits : list ustring) :
  visits <> [] ->
  Forall (fun visit => ~ In semicolon visit) visits ->
  Forall trimmed visits ->
  Forall (fun visit => is_empty visit = false) visits ->
  map trim (usplit semicolon (join (units "; ") visits)) = visits
  /\ shown_visits (join (units "; ") visits) = visits.
Proof.
  intros Hne Hsemi Htrim Hfull.
  assert (H : map trim (usplit semicolon (join (units "; ") visits)) = visits)
    by (rewrite split_of_join by assumption; now apply map_trim_trimmed).
  split; [exact H|].
  unfold shown_visits. rewrite H. now apply filter_nonempty_all.
Qed.

Lemma parts_are_clean (siteVisits : ustring) :
  Forall (fun part => is_empty (trim part) = false)
         (usplit semicolon siteVisits) ->
  let visits := map trim (usplit semicolon siteVisits) in
  shown_visits siteVisits = visits
  /\ visits <> []
  /\ Forall (fun visit => ~ In semicolon visit) visits
  /\ Forall trimmed visits
  /\ Forall (fun visit => is_empty visit = false) visits.
Proof.
  intros Hparts visits.
  assert (Hfull : Forall (fun visit => is_empty visit = false) visits)
    by (apply Forall_map; exact Hparts).
  split; [now apply filter_nonempty_all|]. split; [|split; [|split]].
  - subst visits. pose proof (usplit_nonempty semicolon siteVisits) as H.
    destruct (usplit semicolon siteVisits); [contradiction | discriminate].
  - apply Forall_map, Forall_forall. intros part Hin Hs.
    apply trim_In in Hs. now apply (usplit_parts _ _ _ Hin).
  - apply Forall_map, Forall_forall. intros part _. apply trim_trimmed.
  - exact Hfull.
Qed.

Lemma shown_after_toggle
  (siteVisits : ustring) (index : nat) (currentVisit : ustring) :
  Forall (fun part => is_empty (trim part) = false)
         (usplit semicolon siteVisits) ->
  nth_error (shown_visits siteVisits) index = Some currentVisit ->
  is_empty (toggle currentVisit) = false ->
  let after := toggled_visits index currentVisit siteVisits in
  shown_visits after
  = with_index index (toggle currentVisit) (shown_visits siteVisits)
  /\ Forall (fun part => is_empty (trim part) = false)
            (usplit semicolon after).
Proof.
  intros Hparts Hnth Hfull after.
  destruct (parts_are_clean siteVisits Hparts)
    as (Hshown & Hne & Hsemi & Htrim & Hfulls).
  set (visits := map trim (usplit semicolon siteVisits)) in *.
  rewrite Hshown in Hnth |- *.
  assert (Hlt : (index < List.length visits)%nat)
    by (apply nth_error_Some; congruence).
  assert (Hin : In currentVisit visits) by (eapply nth_error_In; eassumption).
  assert (Hcur : currentVisit <> []).
  { intros E. pose proof (proj1 (Forall_forall _ _) Hfulls _ Hin) as H.
    rewrite E in H. discriminate. }
  set (new := toggle currentVisit) in *.
  assert (Hafter : after = join (units "; ") (with_index index new visits)).
  { subst after. unfold toggled_visits. fold visits.
    rewrite assign_in_range by exact Hlt. reflexivity. }
  assert (Hne' : with_index index new visits <> []).
  { intros E. apply (f_equal (@List.length ustring)) in E.
    rewrite with_index_length in E. simpl in E. lia. }
  destruct (shown_of_joined (with_index index new visits) Hne') as [Hsplit Hs].
  - apply with_index_Forall; [exact Hsemi|].
    apply toggle_no_semicolon. now apply (proj1 (Forall_forall _ _) Hsemi).
  - apply with_index_Forall; [exact Htrim|].
    apply toggle_trimmed; [exact Hcur|].
    now apply (proj1 (Forall_forall _ _) Htrim).
  - now apply with_index_Forall.
  - rewrite Hafter. split; [exact Hs|].
    apply (proj1 (Forall_map trim (fun visit => is_empty visit = false) _)).
    rewrite Hsplit. now apply with_index_Forall.
Qed.

(** A click on a visit of a tender whose site visits have no blank entry
    between the semicolons: afterwards the visits shown are the same,
    except that the clicked one has gained the check mark, or lost it.
    (The click must leave some text: a visit that is a check mark alone
    would vanish.)  A second click on a visit that had no mark brings back
    what was shown before. *)
Theorem click_marks_the_clicked_visit
  (siteVisits : ustring) (index : nat) (currentVisit : ustring) :
  Forall (fun part => is_empty (trim part) = false)
         (usplit semicolon siteVisits) ->
  nth_error (shown_visits siteVisits) index = Some currentVisit ->
  is_empty (toggle currentVisit) = false ->
  let after := toggled_visits index currentVisit siteVisits in
  shown_visits after
  = with_index index (toggle currentVisit) (shown_visits siteVisits)
  /\ (isCompleted currentVisit = false ->
      shown_visits (toggled_visits index (toggle currentVisit) after)
      = shown_visits siteVisits).
Proof.
  intros Hparts Hnth Hfull after.
  destruct (shown_after_toggle siteVisits index currentVisit Hparts Hnth Hfull)
    as [Hshown Hparts'].
  fold after in Hshown, Hparts'. split; [exact Hshown|].
  intros Hplain.
  assert (Hlt : (index < List.length (shown_visits siteVisits))%nat)
    by (apply nth_error_Some; congruence).
  assert (Hclean : trimmed currentVisit /\ currentVisit <> []).
  { destruct (shown_visits_are_clean_aux siteVisits currentVisit) as (H1 & _ & H3);
      [eapply nth_error_In; eassumption | now split]. }
  destruct Hclean as [Htrim Hcur].
  assert (Hback : toggle (toggle currentVisit) = currentVisit).
  { unfold toggle at 2. rewrite Hplain. unfold toggle. simpl.
    now apply trim_of_trimmed. }
  assert (Hnth' : nth_error (shown_visits after) index = Some (toggle currentVisit))
    by (rewrite Hshown; now apply with_index_nth).
  destruct (shown_after_toggle after index (toggle currentVisit) Hparts' Hnth')
    as [Hshown2 _].
  { rewrite Hback. destruct currentVisit; [contradiction | reflexivity]. }
  rewrite Hshown2, Hshown, with_index_twice, Hback.
  now apply with_index_same.
Qed.

(** Two visits; the second is clicked, and clicked again. *)
Lemma click_marks_the_clicked_visit_witness :
  let siteVisits := units "15/01/2025; 22/01/2025" in
  let after := toggled_visits 1 (units "22/01/2025") siteVisits in
  shown_visits after
  = [units "15/01/2025"; check_mark :: units "22/01/2025"]
  /\ shown_visits (toggled_visits 1 (check_mark :: units "22/01/2025") after)
     = [units "15/01/2025"; units "22/01/2025"].
Proof.
  intros siteVisits after.
  assert (Hparts : Forall (fun part => is_empty (trim part) = false)
                          (usplit semicolon siteVisits))
    by (repeat constructor).
  destruct (click_marks_the_clicked_visit siteVisits 1 (units "22/01/2025")
              Hparts eq_refl eq_refl) as [Hshown Hback].
  split; [exact Hshown | exact (Hback eq_refl)].
Defined.

(* ------------------------------------------------------------------ *)
(** ** Which tender a click updates *)




(* ================================================================== *)
(** * Properties of the task list *)

(** A call that fails changes nothing in the list.  When the API call of
    [_loadTasks], [_handleSubmit] or [_deleteTask] is rejected, the tasks
    are the ones there were and [error] is the message of the method
    ("update" or "create" for a submit, by whether a task was being
    edited).  After a failed submit the form is still open with its data
    and its editing id; after a load, failed or not, [loading] is off. *)
Theorem failed_calls_leave_the_list
  (taskAPI : TaskList.call -> promise jsval) (st : TaskList.state)
  (why : reason) :
  (taskAPI TaskList.GetAll = Rejected why ->
   TaskList._loadTasks taskAPI st
   = TaskList.mkState (TaskList.tasks st) (TaskList.showForm st)
                      (TaskList.formData st) false
                      (JStr "Failed to load tasks. Please try again.")
                      (TaskList.editingId st))
  /\ (taskAPI (TaskList.submit_call st) = Rejected why ->
      TaskList._handleSubmit taskAPI st
      = TaskList.mkState (TaskList.tasks st) (TaskList.showForm st)
                         (TaskList.formData st) (TaskList.loading st)
                         (if truthy (TaskList.editingId st)
                          then JStr "Failed to update task. Please try again."
                          else JStr "Failed to create task. Please try again.")
                         (TaskList.editingId st))
  /\ (forall id,
        taskAPI (TaskList.Delete id) = Rejected why ->
        TaskList._deleteTask taskAPI true id st
        = TaskList.mkState (TaskList.tasks st) (TaskList.showForm st)
                           (TaskList.formData st) (TaskList.loading st)
                           (JStr "Failed to delete task. Please try again.")
                           (TaskList.editingId st))
  /\ TaskList.loading (TaskList._loadTasks taskAPI st) = false.
Proof.
  split; [|split; [|split]].
  - intros H. unfold TaskList._loadTasks. rewrite H. reflexivity.
  - unfold TaskList.submit_call, TaskList._handleSubmit, TaskList.submit_failed.
    simpl TaskList.editingId.
    destruct (truthy (TaskList.editingId st)) eqn:E; simpl; intros H;
      rewrite H; simpl; rewrite ?E; reflexivity.
  - intros id H. unfold TaskList._deleteTask. rewrite H. reflexivity.
  - unfold TaskList._loadTasks.
    destruct (taskAPI TaskList.GetAll) as [dbTasks|w]; [|reflexivity].
    destruct (TaskList.transform_all dbTasks); reflexivity.
Qed.

(** The server is out of reach while a task is being edited. *)
Lemma failed_calls_leave_the_list_witness :
  let task := JObj [("id", JNum 1); ("description", JStr "Ship report");
                    ("assignedTo", JStr "Alex"); ("dueDate", JStr "2025-03-01");
                    ("status", JStr "SENT"); ("createdAt", JStr "2025-02-01")] in
  let st := TaskList.mkState [task] true task false JNull (JNum 1) in
  TaskList._handleSubmit (fun _ => Rejected (Thrown TypeError)) st
  = TaskList.mkState [task] true task false
                     (JStr "Failed to update task. Please try again.") (JNum 1).
Proof.
  intros task st.
  exact (proj1 (proj2 (failed_calls_leave_the_list
                         (fun _ => Rejected (Thrown TypeError)) st
                         (Thrown TypeError))) eq_refl).
Defined.

Lemma replace_by_id (id updated : jsval) (ts : list jsval) :
  Forall (fun t => exists props, t = JObj props) ts ->
  map_throwing (fun t => match TaskList.has_id id t with
                         | Ok same => Ok (if same then updated else t)
                         | Throw e => Throw e
                         end) ts
  = Ok (map (fun t => if strict_equal (prop t "id") id then updated else t) ts).
Proof.
  induction 1 as [|t ts [props ->] Hts IH]; simpl; [reflexivity|].
  now rewrite IH.
Qed.

(** What a submit that goes through does.  With a truthy editing id it is
    an update: each task of the list whose id is the editing id gives way
    to the transformed answer, the others stay, in place.  With any other
    editing id ([null], but also 0 or the empty string) it is a creation:
    the transformed answer is put first.  Either way the form is closed
    and emptied, and no error or editing id is left. *)
Theorem submit_updates_in_place_or_adds_first
  (taskAPI : TaskList.call -> promise jsval) (st : TaskList.state)
  (dbTask shown : jsval) :
  taskAPI (TaskList.submit_call st) = Fulfilled dbTask ->
  transformTask dbTask = Ok shown ->
  Forall (fun t => exists props, t = JObj props) (TaskList.tasks st) ->
  TaskList._handleSubmit taskAPI st
  = TaskList.mkState
      (if truthy (TaskList.editingId st)
       then map (fun t => if strict_equal (prop t "id") (TaskList.editingId st)
                          then shown else t) (TaskList.tasks st)
       else shown :: TaskList.tasks st)
      false TaskList.empty_form (TaskList.loading st) JNull JNull.
Proof.
  unfold TaskList.submit_call, TaskList._handleSubmit.
  simpl TaskList.editingId. simpl TaskList.formData.
  destruct (truthy (TaskList.editingId st)) eqn:E; intros Hcall Hshown Hobjects;
    rewrite Hcall, Hshown; [|reflexivity].
  simpl TaskList.tasks. now rewrite replace_by_id.
Qed.

(** Task 1 is edited and saved; then a task is added. *)
Lemma submit_updates_in_place_or_adds_first_witness :
  let one := JObj [("id", JNum 1); ("description", JStr "Ship report")] in
  let two := JObj [("id", JNum 2); ("description", JStr "Call supplier")] in
  let answer := JObj [("id", JNum 1); ("description", JStr "Ship the report")] in
  let st := TaskList.mkState [one; two] true one false JNull (JNum 1) in
  TaskList.tasks (TaskList._handleSubmit (fun _ => Fulfilled answer) st)
  = [JObj [("id", JNum 1); ("description", JStr "Ship the report");
           ("assignedTo", JUndefined); ("dueDate", JUndefined);
           ("status", JUndefined); ("createdAt", JUndefined)];
     two].
Proof.
  intros one two answer st.
  assert (Hobjects : Forall (fun t => exists props, t = JObj props)
                            (TaskList.tasks st))
    by (repeat constructor; eexists; reflexivity).
  rewrite (submit_updates_in_place_or_adds_first
             (fun _ => Fulfilled answer) st answer _ eq_refl eq_refl Hobjects).
  reflexivity.
Defined.
